(** * seller-apis: price and stock synchronisation with two marketplaces

    A shallow embedding of [seller.py] (Ozon channel) and [market.py]
    (Yandex Market channel): the paginated catalog reader [get_offer_ids],
    the reconciliation functions [create_stocks] and [create_prices], the
    price normaliser [price_conversion] and the batch partitioner [divide].

    Conventions.
    - A Python [str] is a [string] holding its UTF-8 bytes; the source only
      inspects the ASCII characters ['.'], ['0'..'9'], [">10"], ["1"], and
      every byte of a non-ASCII character is above 127.
    - A Python [int] is a [Z]; the builtin [int] is the one of CPython
      3.11 with its default settings.
    - A raised exception is the [Err] branch of [result].
    - The list object [offer_ids], which [create_stocks] mutates in place,
      is the store of a small state-and-error monad.
    - The remote catalog is a state-passing function [get_product_list];
      the reader's [while True] loop takes fuel and keeps a log of the
      requests it sent with their answers. *)

From Stdlib Require Import ZArith Lia Bool List String Ascii.
From Stdlib Require Import DecimalString Permutation.
Import ListNotations.

Local Open Scope string_scope.
Local Open Scope list_scope.
Local Open Scope Z_scope.

(** ** Python values, exceptions *)

Inductive exn : Type :=
| ValueError
| TypeError
| AttributeError
| HTTPError.

Inductive result (A : Type) : Type :=
| Ok (a : A)
| Err (e : exn).

Arguments Ok {A} a.
Arguments Err {A} e.

(** The cells of a spreadsheet row, as [pandas.read_excel(...).to_dict]
    delivers them to the reconciliation code: text, an integer (a numeric
    cell is taken to hold a whole number, of the size a spreadsheet can
    hold: far fewer than the 4300 digits beyond which [str] of an [int]
    is refused), or [None] (what [dict.get] answers for a missing
    column). *)
Inductive pyval : Type :=
| PyNone
| PyStr (s : string)
| PyInt (z : Z).

(** [str(v)] *)
Definition py_str (v : pyval) : string :=
  match v with
  | PyNone => "None"
  | PyStr s => s
  | PyInt z => NilZero.string_of_int (Z.to_int z)
  end.

(** *** [int(v)]

    [int(str)] in base ten, as CPython 3.11 computes it: the text's white
    space and decimal digits are first brought to ASCII
    ([_PyUnicode_TransformDecimalAndSpaceToASCII], with the tables of
    Unicode 14), then [PyLong_FromString] reads optional white space, one
    optional sign, decimal digits in which single underscores may
    separate digits, and optional white space; more than
    [int_max_str_digits] digits are refused.  Code points are numbers in
    [N]. *)

Definition is_digit (c : ascii) : bool :=
  let n := nat_of_ascii c in (48 <=? n)%nat && (n <=? 57)%nat.

(** The code points of a text held as UTF-8 bytes.  A byte sequence that
    is not UTF-8, which no [str] gives, yields [no_char]. *)
Definition no_char : N := 1114112%N.

Definition continuation (b : N) : bool := ((128 <=? b) && (b <? 192))%N.

Fixpoint utf8_decode (bytes : list N) : list N :=
  match bytes with
  | [] => []
  | b :: r =>
      if (b <? 128)%N then b :: utf8_decode r
      else if (b <? 192)%N then no_char :: utf8_decode r
      else if (b <? 224)%N then
        match r with
        | c1 :: r1 =>
            if continuation c1
            then ((b - 192) * 64 + (c1 - 128))%N :: utf8_decode r1
            else no_char :: utf8_decode r
        | _ => no_char :: utf8_decode r
        end
      else if (b <? 240)%N then
        match r with
        | c1 :: c2 :: r2 =>
            if continuation c1 && continuation c2
            then ((b - 224) * 4096 + (c1 - 128) * 64 + (c2 - 128))%N
                 :: utf8_decode r2
            else no_char :: utf8_decode r
        | _ => no_char :: utf8_decode r
        end
      else
        match r with
        | c1 :: c2 :: c3 :: r3 =>
            if continuation c1 && continuation c2 && continuation c3
            then ((b - 240) * 262144 + (c1 - 128) * 4096
                  + (c2 - 128) * 64 + (c3 - 128))%N
                 :: utf8_decode r3
            else no_char :: utf8_decode r
        | _ => no_char :: utf8_decode r
        end
  end.

Definition code_points (s : string) : list N :=
  utf8_decode (map N_of_ascii (list_ascii_of_string s)).

(** The white space characters beyond ASCII ([Py_UNICODE_ISSPACE]). *)
Definition unicode_spaces : list N :=
  [
   133; 160; 5760; 8192; 8193; 8194; 8195; 8196;
   8197; 8198; 8199; 8200; 8201; 8202; 8232; 8233;
   8239; 8287; 12288
  ]%N.

(** The decimal digits beyond ASCII, as runs [(first, length)]; within a
    run the digits [0 .. 9] follow each other. *)
Definition decimal_runs : list (N * N) :=
  [
   (1632, 10); (1776, 10); (1984, 10); (2406, 10); (2534, 10);
   (2662, 10); (2790, 10); (2918, 10); (3046, 10); (3174, 10);
   (3302, 10); (3430, 10); (3558, 10); (3664, 10); (3792, 10);
   (3872, 10); (4160, 10); (4240, 10); (6112, 10); (6160, 10);
   (6470, 10); (6608, 10); (6784, 10); (6800, 10); (6992, 10);
   (7088, 10); (7232, 10); (7248, 10); (42528, 10); (43216, 10);
   (43264, 10); (43472, 10); (43504, 10); (43600, 10); (44016, 10);
   (65296, 10); (66720, 10); (68912, 10); (69734, 10); (69872, 10);
   (69942, 10); (70096, 10); (70384, 10); (70736, 10); (70864, 10);
   (71248, 10); (71360, 10); (71472, 10); (71904, 10); (72016, 10);
   (72784, 10); (73040, 10); (73120, 10); (92768, 10); (92864, 10);
   (93008, 10); (120782, 50); (123200, 10); (123632, 10); (125264, 10);
   (130032, 10)
  ]%N.

Definition unicode_space (c : N) : bool := existsb (N.eqb c) unicode_spaces.

Definition unicode_decimal (c : N) : option N :=
  match
    find (fun r : N * N => ((fst r <=? c) && (c <? fst r + snd r))%N)
      decimal_runs
  with
  | Some r => Some ((c - fst r) mod 10)%N
  | None => None
  end.

(** One character of the transformation to ASCII; [None] is the ['?']
    that makes the parse fail. *)
Definition to_ascii (c : N) : option N :=
  if (c <? 127)%N then Some c
  else if unicode_space c then Some 32%N
  else option_map (N.add 48) (unicode_decimal c).

Fixpoint transform (l : list N) : option (list N) :=
  match l with
  | [] => Some []
  | c :: l' =>
      match to_ascii c, transform l' with
      | Some a, Some r => Some (a :: r)
      | _, _ => None
      end
  end.

(** C's [isspace], which [PyLong_FromString] skips. *)
Definition is_space (c : N) : bool :=
  (((9 <=? c) && (c <=? 13)) || (c =? 32))%N.

Definition ascii_digit (c : N) : bool := ((48 <=? c) && (c <=? 57))%N.

Definition digit_value (c : N) : Z := Z.of_N c - 48.

Fixpoint lstrip (l : list N) : list N :=
  match l with
  | c :: l' => if is_space c then lstrip l' else l
  | [] => []
  end.

Definition strip (l : list N) : list N :=
  rev (lstrip (rev (lstrip l))).

(** [prev] records whether the previous character was a digit: an
    underscore is accepted only between two digits. *)
Fixpoint parse_digits (acc : Z) (prev : bool) (l : list N) : option Z :=
  match l with
  | [] => if prev then Some acc else None
  | c :: l' =>
      if ascii_digit c then parse_digits (10 * acc + digit_value c) true l'
      else if (c =? 95)%N && prev then parse_digits acc false l'
      else None
  end.

(** [sys.get_int_max_str_digits()], the interpreter's default. *)
Definition int_max_str_digits : Z := 4300.

(** [PyLong_FromString] on the ASCII text. *)
Definition parse_int (l : list N) : option Z :=
  let signed :=
    match strip l with
    | c :: r =>
        if (c =? 43)%N then (false, r)
        else if (c =? 45)%N then (true, r)
        else (false, c :: r)
    | [] => (false, [])
    end in
  if int_max_str_digits
     <? Z.of_nat (List.length (filter ascii_digit (snd signed)))
  then None
  else
    match parse_digits 0 false (snd signed) with
    | Some v => Some (if fst signed then - v else v)
    | None => None
    end.

Definition int_of_string (s : string) : option Z :=
  match transform (code_points s) with
  | Some l => parse_int l
  | None => None
  end.

Definition py_int (v : pyval) : result Z :=
  match v with
  | PyNone => Err TypeError
  | PyStr s =>
      match int_of_string s with
      | Some z => Ok z
      | None => Err ValueError
      end
  | PyInt z => Ok z
  end.

(** ** [price_conversion] *)

(** [s.split(sep)] for a one-character separator: never empty. *)
Fixpoint split (sep : ascii) (s : string) : list string :=
  match s with
  | EmptyString => [EmptyString]
  | String c s' =>
      if Ascii.eqb c sep then EmptyString :: split sep s'
      else match split sep s' with
           | p :: ps => String c p :: ps
           | [] => [String c EmptyString]
           end
  end.

(** [re.sub("[^0-9]", "", s)] *)
Fixpoint re_sub_non_digits (s : string) : string :=
  match s with
  | EmptyString => EmptyString
  | String c s' =>
      if is_digit c then String c (re_sub_non_digits s')
      else re_sub_non_digits s'
  end.

(** [re.sub("[^0-9]", "", price.split(".")[0])] *)
Definition price_conversion (price : string) : string :=
  re_sub_non_digits (nth 0 (split "." price) EmptyString).

(** The price cell as [create_prices] passes it on: [price_conversion]
    calls [.split] on it, which only a [str] has. *)
Definition price_conversion_val (v : pyval) : result string :=
  match v with
  | PyStr s => Ok (price_conversion s)
  | _ => Err AttributeError
  end.

(** ** [divide] *)

(** [range(start, stop, step)] as the list of its values; the length is
    CPython's [get_len_of_range]. *)
Definition py_range (start stop step : Z) : result (list Z) :=
  if step =? 0 then Err ValueError
  else
    let len :=
      if 0 <? step
      then (if start <? stop then (stop - start - 1) / step + 1 else 0)
      else (if stop <? start then (start - stop - 1) / (- step) + 1 else 0) in
    Ok (map (fun k => start + Z.of_nat k * step) (seq 0 (Z.to_nat len))).

(** A slice bound clamped into [0 .. len], negative bounds counting from
    the end. *)
Definition clamp (len i : Z) : Z :=
  if i <? 0 then Z.max (i + len) 0 else Z.min i len.

(** [lst[i:j]] *)
Definition py_slice {A : Type} (lst : list A) (i j : Z) : list A :=
  let len := Z.of_nat (List.length lst) in
  let lo := clamp len i in
  let hi := clamp len j in
  firstn (Z.to_nat (hi - lo)) (skipn (Z.to_nat lo) lst).

(** The generator [divide(lst, n)], as the list of the chunks it yields. *)
Definition divide {A : Type} (lst : list A) (n : Z) : result (list (list A)) :=
  match py_range 0 (Z.of_nat (List.length lst)) n with
  | Ok idx => Ok (map (fun i => py_slice lst i (i + n)) idx)
  | Err e => Err e
  end.

(** ** The shared list object [offer_ids]

    [create_stocks] removes identifiers from the caller's list while it
    runs; a computation is a function of that list, answers a value or an
    exception, and leaves the list as the caller will find it. *)

Definition M (A : Type) : Type := list string -> result A * list string.

Definition ret {A : Type} (a : A) : M A := fun ids => (Ok a, ids).

Definition bind {A B : Type} (m : M A) (k : A -> M B) : M B :=
  fun ids =>
    match m ids with
    | (Ok a, ids') => k a ids'
    | (Err e, ids') => (Err e, ids')
    end.

Definition lift {A : Type} (r : result A) : M A := fun ids => (r, ids).

Notation "x <- m ;; k" := (bind m (fun x => k))
  (at level 61, m at next level, right associativity).
Notation "m ;;; k" := (bind m (fun _ => k))
  (at level 61, right associativity).

(** [x in lst] on a list of strings *)
Definition py_in (x : string) (lst : list string) : bool :=
  existsb (String.eqb x) lst.

(** [lst.remove(x)]: drops the first occurrence, [ValueError] if none. *)
Fixpoint py_remove (x : string) (lst : list string) : option (list string) :=
  match lst with
  | [] => None
  | y :: lst' =>
      if String.eqb y x then Some lst'
      else option_map (cons y) (py_remove x lst')
  end.

Definition contains (x : string) : M bool :=
  fun ids => (Ok (py_in x ids), ids).

Definition remove (x : string) : M unit :=
  fun ids =>
    match py_remove x ids with
    | Some ids' => (Ok tt, ids')
    | None => (Err ValueError, ids)
    end.

Definition read_list : M (list string) := fun ids => (Ok ids, ids).

(** ** Inventory records *)

(** One row of [watch_remnants]; a field is what [watch.get(column)]
    answers: [Kod] for the column "Код", [Kolichestvo] for "Количество",
    [Tsena] for "Цена". *)
Record watch : Type := {
  Kod : pyval;
  Kolichestvo : pyval;
  Tsena : pyval
}.

(** The quantity policy both channels apply to a matched row:
    [count = str(watch.get("Количество"))], then [100] for [">10"], [0] for
    ["1"], otherwise [int(watch.get("Количество"))]. *)
Definition stock_of_count (quantity : pyval) : result Z :=
  let count := py_str quantity in
  if String.eqb count ">10" then Ok 100
  else if String.eqb count "1" then Ok 0
  else py_int quantity.

(** ** Reconciliation, common to both channels

    [seller.create_stocks] and [market.create_stocks] run the same two
    loops and differ in the record they append; likewise the two
    [create_prices].  The record constructors are the section's variables. *)

Section Reconciliation.

Variable update : Type.
Variable mk_update : string -> Z -> update.

(** The first loop of [create_stocks]; [stocks] is the list built so
    far. *)
Fixpoint match_pass (watch_remnants : list watch) (stocks : list update)
  : M (list update) :=
  match watch_remnants with
  | [] => ret stocks
  | watch :: rest =>
      present <- contains (py_str (Kod watch)) ;;
      if (present : bool) then
        stock <- lift (stock_of_count (Kolichestvo watch)) ;;
        let stocks := stocks ++ [mk_update (py_str (Kod watch)) stock] in
        remove (py_str (Kod watch)) ;;;
        match_pass rest stocks
      else match_pass rest stocks
  end.

Definition create_stocks_with (watch_remnants : list watch)
  : M (list update) :=
  stocks <- match_pass watch_remnants [] ;;
  offer_ids <- read_list ;;
  ret (stocks ++ map (fun offer_id => mk_update offer_id 0) offer_ids).

Variable price_update : Type.
Variable mk_price : string -> pyval -> result price_update.

Fixpoint price_pass (watch_remnants : list watch)
  (prices : list price_update) : M (list price_update) :=
  match watch_remnants with
  | [] => ret prices
  | watch :: rest =>
      present <- contains (py_str (Kod watch)) ;;
      if (present : bool) then
        price <- lift (mk_price (py_str (Kod watch)) (Tsena watch)) ;;
        price_pass rest (prices ++ [price])
      else price_pass rest prices
  end.

Definition create_prices_with (watch_remnants : list watch)
  : M (list price_update) :=
  price_pass watch_remnants [].

End Reconciliation.

Arguments match_pass {update} mk_update watch_remnants stocks.
Arguments create_stocks_with {update} mk_update watch_remnants.
Arguments price_pass {price_update} mk_price watch_remnants prices.
Arguments create_prices_with {price_update} mk_price watch_remnants.

(** ** Submitting in chunks

    [for some in list(divide(lst, n)): update(some, ...)], as every
    caller writes it: the chunks are all cut first, then handed to the
    write request one by one; a request that raises ends the loop.
    [sent] is the log of the payloads handed over. *)

Section Submission.

Context {A Response World : Type}.
Variable update : list A -> World -> result Response * World.

Fixpoint send_chunks (chunks : list (list A)) (sent : list (list A))
  (w : World) : result unit * list (list A) * World :=
  match chunks with
  | [] => (Ok tt, sent, w)
  | some :: rest =>
      match update some w with
      | (Ok _, w') => send_chunks rest (sent ++ [some]) w'
      | (Err e, w') => (Err e, sent ++ [some], w')
      end
  end.

Definition submit (lst : list A) (n : Z) (w : World)
  : result unit * list (list A) * World :=
  match divide lst n with
  | Ok chunks => send_chunks chunks [] w
  | Err e => (Err e, [], w)
  end.

End Submission.

(** ** The Ozon channel, [seller.py] *)

Module Seller.

(** An entry of ["items"]; the reader keeps its ["offer_id"]. *)
Record product : Type := { offer_id : string }.

(** The ["result"] object of one catalog page. *)
Record product_page : Type := {
  items : list product;
  total : Z;
  last_id : string
}.

(** [{"offer_id": ..., "stock": ...}] *)
Record stock_update : Type := {
  s_offer_id : string;
  s_stock : Z
}.

Record price_update : Type := {
  auto_action_enabled : string;
  currency_code : string;
  p_offer_id : string;
  old_price : string;
  price : string
}.

(** The record both loops of [create_stocks] append. *)
Definition mk_stock (offer_id : string) (stock : Z) : stock_update :=
  {| s_offer_id := offer_id; s_stock := stock |}.

Definition create_stocks (watch_remnants : list watch)
  : M (list stock_update) :=
  create_stocks_with mk_stock watch_remnants.

Definition mk_price (offer_id : string) (tsena : pyval)
  : result price_update :=
  match price_conversion_val tsena with
  | Ok p =>
      Ok {| auto_action_enabled := "UNKNOWN";
            currency_code := "RUB";
            p_offer_id := offer_id;
            old_price := "0";
            price := p |}
  | Err e => Err e
  end.

Definition create_prices (watch_remnants : list watch)
  : M (list price_update) :=
  create_prices_with mk_price watch_remnants.

(** The two reconciliation calls of [main], one after the other on the
    one list object [offer_ids]. *)
Definition main_updates (watch_remnants : list watch)
  : M (list stock_update * list price_update) :=
  stocks <- create_stocks watch_remnants ;;
  prices <- create_prices watch_remnants ;;
  ret (stocks, prices).

(** One request with its answer, as the reader's log keeps it. *)
Definition exchange : Type := (string * result product_page)%type.

Definition log_items (log : list exchange) : list product :=
  flat_map
    (fun x : exchange =>
       match snd x with Ok p => items p | Err _ => [] end)
    log.

Section Reader.

(** The remote side: [get_product_list last_id] answers a page or
    fails, and may change state. *)
Variable World : Type.
Variable get_product_list :
  string -> World -> result product_page * World.

(** The [while True] loop of [get_offer_ids].  [None]: the loop is
    still running when the fuel is spent. *)
Fixpoint fetch (fuel : nat) (last_id : string)
  (product_list : list product) (log : list exchange) (w : World)
  : option (result (list product) * list exchange * World) :=
  match fuel with
  | O => None
  | S fuel' =>
      match get_product_list last_id w with
      | (Err e, w') => Some (Err e, log ++ [(last_id, Err e)], w')
      | (Ok some_prod, w') =>
          let product_list := product_list ++ items some_prod in
          let log := log ++ [(last_id, Ok some_prod)] in
          if total some_prod =? Z.of_nat (List.length product_list)
          then Some (Ok product_list, log, w')
          else fetch fuel' (Seller.last_id some_prod) product_list log w'
      end
  end.

Definition get_offer_ids (fuel : nat) (w : World)
  : option (result (list string) * list exchange * World) :=
  match fetch fuel "" [] [] w with
  | Some (Ok product_list, log, w') =>
      Some (Ok (map offer_id product_list), log, w')
  | Some (Err e, log, w') => Some (Err e, log, w')
  | None => None
  end.

(** [log] is what the remote side answers, from the state [w] on, to
    the requests the loop sends when it starts with [last_id]: each
    request carries the [last_id] of the answer before. *)
Fixpoint answers (last_id : string) (w : World) (log : list exchange)
  (w' : World) : Prop :=
  match log with
  | [] => w = w'
  | (tok, r) :: rest =>
      tok = last_id
      /\ exists w1,
           get_product_list last_id w = (r, w1)
           /\ match r with
              | Ok p => answers (Seller.last_id p) w1 rest w'
              | Err _ => False
              end
  end.

End Reader.

Arguments fetch {World} get_product_list fuel last_id product_list log w.
Arguments get_offer_ids {World} get_product_list fuel w.
Arguments answers {World} get_product_list last_id w log w'.

(** The last answer of [log] is the first whose [total] equals the
    number of products gathered so far, [seen] being those gathered
    before [log]. *)
Definition stops_first (seen : list product) (log : list exchange) : Prop :=
  (exists init tok p,
      log = init ++ [(tok, Ok p)]
      /\ total p = Z.of_nat (List.length (seen ++ log_items log)))
  /\ (forall l1 tok p l2,
        log = l1 ++ (tok, Ok p) :: l2 -> l2 <> [] ->
        total p
        <> Z.of_nat (List.length (seen ++ log_items (l1 ++ [(tok, Ok p)])))).

(** *** The callers: [upload_prices], [upload_stocks], [main] *)

(** What a run of [main] did: the payloads handed to the two write
    requests, and the exception its [except] clauses caught and
    printed, if any. *)
Record run : Type := {
  stocks_sent : list (list stock_update);
  prices_sent : list (list price_update);
  caught : option exn
}.

Section Pipeline.

Variable World : Type.
Variable Response : Type.
Variable get_product_list :
  string -> World -> result product_page * World.
Variable update_price :
  list price_update -> World -> result Response * World.
Variable update_stocks :
  list stock_update -> World -> result Response * World.
Variable download_stock : World -> result (list watch) * World.

(** The body of the coroutine [upload_prices]; with the result, the
    payloads handed to [update_price]. *)
Definition upload_prices (fuel : nat) (watch_remnants : list watch)
  (w : World)
  : option (result (list price_update) * list (list price_update) * World) :=
  match get_offer_ids get_product_list fuel w with
  | None => None
  | Some (Err e, _, w1) => Some (Err e, [], w1)
  | Some (Ok offer_ids, _, w1) =>
      match create_prices watch_remnants offer_ids with
      | (Err e, _) => Some (Err e, [], w1)
      | (Ok prices, _) =>
          match submit update_price prices 1000 w1 with
          | (Ok _, sent, w2) => Some (Ok prices, sent, w2)
          | (Err e, sent, w2) => Some (Err e, sent, w2)
          end
      end
  end.

(** The body of the coroutine [upload_stocks]; it returns
    [(not_empty, stocks)]. *)
Definition upload_stocks (fuel : nat) (watch_remnants : list watch)
  (w : World)
  : option (result (list stock_update * list stock_update)
            * list (list stock_update) * World) :=
  match get_offer_ids get_product_list fuel w with
  | None => None
  | Some (Err e, _, w1) => Some (Err e, [], w1)
  | Some (Ok offer_ids, _, w1) =>
      match create_stocks watch_remnants offer_ids with
      | (Err e, _) => Some (Err e, [], w1)
      | (Ok stocks, _) =>
          match submit update_stocks stocks 100 w1 with
          | (Ok _, sent, w2) =>
              let not_empty :=
                filter (fun stock => negb (s_stock stock =? 0)) stocks in
              Some (Ok (not_empty, stocks), sent, w2)
          | (Err e, sent, w2) => Some (Err e, sent, w2)
          end
      end
  end.

(** The [try] block of [main]: the catalog, the inventory file, the
    stock writes, then the price writes computed from the list object
    [create_stocks] has worked on. *)
Definition main_try (fuel : nat) (w : World)
  : option (result unit * list (list stock_update)
            * list (list price_update) * World) :=
  match get_offer_ids get_product_list fuel w with
  | None => None
  | Some (Err e, _, w1) => Some (Err e, [], [], w1)
  | Some (Ok offer_ids, _, w1) =>
      match download_stock w1 with
      | (Err e, w2) => Some (Err e, [], [], w2)
      | (Ok watch_remnants, w2) =>
          match create_stocks watch_remnants offer_ids with
          | (Err e, _) => Some (Err e, [], [], w2)
          | (Ok stocks, offer_ids) =>
              match submit update_stocks stocks 100 w2 with
              | (Err e, s_sent, w3) => Some (Err e, s_sent, [], w3)
              | (Ok _, s_sent, w3) =>
                  match create_prices watch_remnants offer_ids with
                  | (Err e, _) => Some (Err e, s_sent, [], w3)
                  | (Ok prices, _) =>
                      match submit update_price prices 900 w3 with
                      | (r, p_sent, w4) => Some (r, s_sent, p_sent, w4)
                      end
                  end
              end
          end
      end
  end.

(** [main] after its configuration is read: every exception of the
    [try] block is caught and printed. *)
Definition main (fuel : nat) (w : World) : option (run * World) :=
  match main_try fuel w with
  | None => None
  | Some (r, s_sent, p_sent, w') =>
      Some ({| stocks_sent := s_sent;
               prices_sent := p_sent;
               caught := match r with Ok _ => None | Err e => Some e end |},
            w')
  end.

End Pipeline.

Arguments upload_prices {World Response} get_product_list update_price
  fuel watch_remnants w.
Arguments upload_stocks {World Response} get_product_list update_stocks
  fuel watch_remnants w.
Arguments main_try {World Response} get_product_list update_price
  update_stocks download_stock fuel w.
Arguments main {World Response} get_product_list update_price
  update_stocks download_stock fuel w.

End Seller.

(** ** The Yandex Market channel, [market.py] *)

Module Market.

(** An entry of ["offerMappingEntries"]; the reader keeps
    [product.get("offer").get("shopSku")]. *)
Record product : Type := { shopSku : string }.

(** The ["result"] object of one catalog page; [nextPageToken] is
    [None] when ["paging"] carries no token. *)
Record product_page : Type := {
  offerMappingEntries : list product;
  nextPageToken : option string
}.

Record item : Type := {
  count : Z;
  type : string;
  updatedAt : string
}.

Record stock_update : Type := {
  sku : string;
  warehouseId : string;
  stock_items : list item
}.

Record price_value : Type := {
  value : Z;
  currencyId : string
}.

Record price_update : Type := {
  id : string;
  price : price_value
}.

(** The record both loops of [create_stocks] append. *)
Definition mk_stock (warehouse_id date offer_id : string) (stock : Z)
  : stock_update :=
  {| sku := offer_id;
     warehouseId := warehouse_id;
     stock_items :=
       [{| count := stock; type := "FIT"; updatedAt := date |}] |}.

(** [date] is the reading of the clock taken on entry. *)
Definition create_stocks (watch_remnants : list watch)
  (warehouse_id date : string) : M (list stock_update) :=
  create_stocks_with (mk_stock warehouse_id date) watch_remnants.

Definition mk_price (offer_id : string) (tsena : pyval)
  : result price_update :=
  match price_conversion_val tsena with
  | Ok p =>
      match py_int (PyStr p) with
      | Ok v =>
          Ok {| id := offer_id;
                price := {| value := v; currencyId := "RUR" |} |}
      | Err e => Err e
      end
  | Err e => Err e
  end.

Definition create_prices (watch_remnants : list watch)
  : M (list price_update) :=
  create_prices_with mk_price watch_remnants.

(** The quantity a stock record carries, as [upload_stocks] reads it:
    [stock.get("items")[0].get("count")].  Every record [mk_stock] builds
    has exactly one item. *)
Definition stock_count (s : stock_update) : Z :=
  match stock_items s with
  | i :: _ => count i
  | [] => 0
  end.

(** [not page] *)
Definition falsy (page : option string) : bool :=
  match page with
  | None => true
  | Some s => String.eqb s ""
  end.

Definition token (page : option string) : string :=
  match page with
  | None => ""
  | Some s => s
  end.

Definition exchange : Type := (string * result product_page)%type.

Definition log_items (log : list exchange) : list product :=
  flat_map
    (fun x : exchange =>
       match snd x with Ok p => offerMappingEntries p | Err _ => [] end)
    log.

Section Reader.

Variable World : Type.
Variable get_product_list :
  string -> World -> result product_page * World.

Fixpoint fetch (fuel : nat) (page : string)
  (product_list : list product) (log : list exchange) (w : World)
  : option (result (list product) * list exchange * World) :=
  match fuel with
  | O => None
  | S fuel' =>
      match get_product_list page w with
      | (Err e, w') => Some (Err e, log ++ [(page, Err e)], w')
      | (Ok some_prod, w') =>
          let product_list :=
            product_list ++ offerMappingEntries some_prod in
          let log := log ++ [(page, Ok some_prod)] in
          if falsy (nextPageToken some_prod)
          then Some (Ok product_list, log, w')
          else fetch fuel' (token (nextPageToken some_prod))
                 product_list log w'
      end
  end.

Definition get_offer_ids (fuel : nat) (w : World)
  : option (result (list string) * list exchange * World) :=
  match fetch fuel "" [] [] w with
  | Some (Ok product_list, log, w') =>
      Some (Ok (map shopSku product_list), log, w')
  | Some (Err e, log, w') => Some (Err e, log, w')
  | None => None
  end.

(** [log] is what the remote side answers, from the state [w] on, to
    the requests the loop sends when it starts with [page]: each request
    carries the token of the answer before. *)
Fixpoint answers (page : string) (w : World) (log : list exchange)
  (w' : World) : Prop :=
  match log with
  | [] => w = w'
  | (tok, r) :: rest =>
      tok = page
      /\ exists w1,
           get_product_list page w = (r, w1)
           /\ match r with
              | Ok p => answers (token (nextPageToken p)) w1 rest w'
              | Err _ => False
              end
  end.

End Reader.

Arguments fetch {World} get_product_list fuel page product_list log w.
Arguments get_offer_ids {World} get_product_list fuel w.
Arguments answers {World} get_product_list page w log w'.

(** The last answer of [log] is the first without a continuation
    token. *)
Definition stops_first (log : list exchange) : Prop :=
  (exists init tok p,
      log = init ++ [(tok, Ok p)] /\ falsy (nextPageToken p) = true)
  /\ (forall l1 tok p l2,
        log = l1 ++ (tok, Ok p) :: l2 -> l2 <> [] ->
        falsy (nextPageToken p) = false).

(** *** The callers: [upload_prices], [upload_stocks], [main] *)

(** What a run of [main] did: the payloads handed to the stock write
    request, each with the campaign it went to, and the exception the
    [except] clauses caught and printed, if any. *)
Record run : Type := {
  stocks_sent : list (string * list stock_update);
  caught : option exn
}.

Section Pipeline.

Variable World : Type.
Variable Response : Type.
(** The requests take the campaign they address as first argument. *)
Variable get_product_list :
  string -> string -> World -> result product_page * World.
Variable update_price :
  string -> list price_update -> World -> result Response * World.
Variable update_stocks :
  string -> list stock_update -> World -> result Response * World.
Variable download_stock : World -> result (list watch) * World.
(** [datetime.utcnow()], formatted as [create_stocks] does. *)
Variable utcnow : World -> string.

(** The body of the coroutine [upload_prices]. *)
Definition upload_prices (fuel : nat) (watch_remnants : list watch)
  (campaign_id : string) (w : World)
  : option (result (list price_update) * list (list price_update) * World) :=
  match get_offer_ids (get_product_list campaign_id) fuel w with
  | None => None
  | Some (Err e, _, w1) => Some (Err e, [], w1)
  | Some (Ok offer_ids, _, w1) =>
      match create_prices watch_remnants offer_ids with
      | (Err e, _) => Some (Err e, [], w1)
      | (Ok prices, _) =>
          match submit (update_price campaign_id) prices 500 w1 with
          | (Ok _, sent, w2) => Some (Ok prices, sent, w2)
          | (Err e, sent, w2) => Some (Err e, sent, w2)
          end
      end
  end.

(** The body of the coroutine [upload_stocks]; it returns
    [(not_empty, stocks)]. *)
Definition upload_stocks (fuel : nat) (watch_remnants : list watch)
  (campaign_id warehouse_id : string) (w : World)
  : option (result (list stock_update * list stock_update)
            * list (list stock_update) * World) :=
  match get_offer_ids (get_product_list campaign_id) fuel w with
  | None => None
  | Some (Err e, _, w1) => Some (Err e, [], w1)
  | Some (Ok offer_ids, _, w1) =>
      match create_stocks watch_remnants warehouse_id (utcnow w1)
              offer_ids with
      | (Err e, _) => Some (Err e, [], w1)
      | (Ok stocks, _) =>
          match submit (update_stocks campaign_id) stocks 2000 w1 with
          | (Ok _, sent, w2) =>
              let not_empty :=
                filter (fun stock => negb (stock_count stock =? 0)) stocks in
              Some (Ok (not_empty, stocks), sent, w2)
          | (Err e, sent, w2) => Some (Err e, sent, w2)
          end
      end
  end.

(** One campaign's share of the [try] block of [main]: catalog, stock
    records, stock writes, and the call [upload_prices(...)].  That call
    is not awaited: it makes a coroutine, which [main] drops without
    running its body. *)
Definition main_campaign (fuel : nat) (watch_remnants : list watch)
  (campaign_id warehouse_id : string) (w : World)
  : option (result unit * list (string * list stock_update) * World) :=
  match get_offer_ids (get_product_list campaign_id) fuel w with
  | None => None
  | Some (Err e, _, w1) => Some (Err e, [], w1)
  | Some (Ok offer_ids, _, w1) =>
      match create_stocks watch_remnants warehouse_id (utcnow w1)
              offer_ids with
      | (Err e, _) => Some (Err e, [], w1)
      | (Ok stocks, _) =>
          match submit (update_stocks campaign_id) stocks 2000 w1 with
          | (Err e, sent, w2) =>
              Some (Err e, map (fun some => (campaign_id, some)) sent, w2)
          | (Ok _, sent, w2) =>
              let coroutine :=
                upload_prices fuel watch_remnants campaign_id in
              Some (Ok tt, map (fun some => (campaign_id, some)) sent, w2)
          end
      end
  end.

(** [main] after its configuration is read.  [download_stock] is called
    before the [try] block, so its exception leaves [main]; what the
    [try] block raises is caught and printed. *)
Definition main (fuel : nat)
  (campaign_fbs_id campaign_dbs_id warehouse_fbs_id warehouse_dbs_id : string)
  (w : World) : option (result run * World) :=
  match download_stock w with
  | (Err e, w0) => Some (Err e, w0)
  | (Ok watch_remnants, w0) =>
      match main_campaign fuel watch_remnants campaign_fbs_id
              warehouse_fbs_id w0 with
      | None => None
      | Some (Err e, fbs_sent, w1) =>
          Some (Ok {| stocks_sent := fbs_sent; caught := Some e |}, w1)
      | Some (Ok _, fbs_sent, w1) =>
          match main_campaign fuel watch_remnants campaign_dbs_id
                  warehouse_dbs_id w1 with
          | None => None
          | Some (r, dbs_sent, w2) =>
              Some (Ok {| stocks_sent := fbs_sent ++ dbs_sent;
                          caught := match r with
                                    | Ok _ => None
                                    | Err e => Some e
                                    end |}, w2)
          end
      end
  end.

End Pipeline.

Arguments upload_prices {World Response} get_product_list update_price
  fuel watch_remnants campaign_id w.
Arguments upload_stocks {World Response} get_product_list update_stocks
  utcnow fuel watch_remnants campaign_id warehouse_id w.
Arguments main_campaign {World Response} get_product_list update_price
  update_stocks utcnow fuel watch_remnants campaign_id warehouse_id w.
Arguments main {World Response} get_product_list update_price
  update_stocks download_stock utcnow fuel campaign_fbs_id
  campaign_dbs_id warehouse_fbs_id warehouse_dbs_id w.

End Market.

(** ** Vocabulary of the statements *)

(** [c in s] for a character *)
Fixpoint contains_char (c : ascii) (s : string) : bool :=
  match s with
  | EmptyString => false
  | String d s' => Ascii.eqb d c || contains_char c s'
  end.

Definition digits_of (s : string) : list ascii :=
  filter is_digit (list_ascii_of_string s).

(** The [k]-th window of width [n] of a list. *)
Definition window {A : Type} (n k : nat) (lst : list A) : list A :=
  firstn n (skipn (k * n) lst).

(** The identifier a row is matched by: [str(watch.get("Код"))]. *)
Definition ident (w : watch) : string := py_str (Kod w).

(** The first row of [rows] carrying the identifier [x]. *)
Definition first_match (x : string) (rows : list watch) : option watch :=
  find (fun w => String.eqb (ident w) x) rows.

(** The quantity an identifier is owed: the policy applied to its first
    row, zero when no row carries it. *)
Definition expected_stock (rows : list watch) (x : string) : result Z :=
  match first_match x rows with
  | Some w => stock_of_count (Kolichestvo w)
  | None => Ok 0
  end.

(** A quantity cell that is neither [">10"] nor ["1"] nor accepted by
    [int]. *)
Definition unparseable (q : pyval) : Prop :=
  py_str q <> ">10" /\ py_str q <> "1" /\ exists e, py_int q = Err e.

(** The row [w], met after the rows [before], still finds its identifier
    in a list that started as [K]: [K] holds it more often than the
    earlier rows carry it. *)
Definition still_known (K : list string) (before : list watch) (w : watch)
  : Prop :=
  (count_occ string_dec (map ident before) (ident w)
   < count_occ string_dec K (ident w))%nat.

(** The rows and identifier lists of the worked examples. *)
Definition row (kod kolichestvo tsena : string) : watch :=
  {| Kod := PyStr kod; Kolichestvo := PyStr kolichestvo;
     Tsena := PyStr tsena |}.

Definition scenario_rows : list watch :=
  [row "A" ">10" "5'990.00 руб."].

Definition scenario_ids : list string := ["A"; "B"; "C"].

Definition repeated_rows : list watch :=
  [row "A" "5" "100.00"; row "A" "abc" "200.00"].

Definition negative_rows : list watch := [row "A" "-5" "100.00"].

(** Remote sides for the worked examples of the catalog reader; they keep
    no state. *)
Definition ozon_page (ids : list string) (total : Z) (last_id : string)
  : Seller.product_page :=
  {| Seller.items := map Seller.Build_product ids;
     Seller.total := total;
     Seller.last_id := last_id |}.

Definition ozon_single (p : Seller.product_page)
  : string -> unit -> result Seller.product_page * unit :=
  fun _ w => (Ok p, w).

Definition ozon_two_pages
  : string -> unit -> result Seller.product_page * unit :=
  fun last_id w =>
    if String.eqb last_id "" then (Ok (ozon_page ["A"] 2 "p1"), w)
    else (Ok (ozon_page ["B"] 2 "p2"), w).

Definition yandex_page (ids : list string) (next : option string)
  : Market.product_page :=
  {| Market.offerMappingEntries := map Market.Build_product ids;
     Market.nextPageToken := next |}.

Definition yandex_single (p : Market.product_page)
  : string -> unit -> result Market.product_page * unit :=
  fun _ w => (Ok p, w).

Definition yandex_two_pages
  : string -> unit -> result Market.product_page * unit :=
  fun page w =>
    if String.eqb page "" then (Ok (yandex_page ["A"] (Some "p1")), w)
    else (Ok (yandex_page ["B"] None), w).

(** Some row of [rows] carries the identifier [x]. *)
Definition has_row (x : string) (rows : list watch) : bool :=
  existsb (fun w => String.eqb (ident w) x) rows.

(** The row's identifier is in the list [K]. *)
Definition known (K : list string) (w : watch) : bool := py_in (ident w) K.

(** A price cell [create_prices] cannot hand to [price_conversion]. *)
Definition not_text (v : pyval) : Prop := forall s, v <> PyStr s.

(** A write request that accepts every payload, and the catalog of the
    scenario on one Ozon page. *)
Definition accept_all {A : Type} : list A -> unit -> result unit * unit :=
  fun _ w => (Ok tt, w).

Definition scenario_catalog
  : string -> unit -> result Seller.product_page * unit :=
  ozon_single (ozon_page scenario_ids 3 "").

Definition scenario_price : Seller.price_update :=
  {| Seller.auto_action_enabled := "UNKNOWN";
     Seller.currency_code := "RUB";
     Seller.p_offer_id := "A";
     Seller.old_price := "0";
     Seller.price := "5990" |}.

Definition scenario_download : unit -> result (list watch) * unit :=
  fun w => (Ok scenario_rows, w).

(** Texts for the worked examples of [int]: a run of zeros, the
    no-break space U+00A0 and the control character U+001C. *)
Fixpoint zeros (n : nat) : string :=
  match n with
  | O => EmptyString
  | S n' => String "0" (zeros n')
  end.

Definition nbsp : string := String "194" (String "160" EmptyString).

Definition file_separator : string := String "028" EmptyString.

Definition counted_rows : list watch := [row "A" "7" "100.00"].

(** The rows that are the first to carry their identifier, in row
    order. *)
Fixpoint first_rows (rows : list watch) : list watch :=
  match rows with
  | [] => []
  | w :: rest =>
      w :: filter (fun w' => negb (String.eqb (ident w') (ident w)))
             (first_rows rest)
  end.

(** The record a matched row is owed: its identifier with the policy's
    quantity, or the exception of the quantity. *)
Definition record_of {update : Type} (mk : string -> Z -> update)
  (w : watch) : result update :=
  match stock_of_count (Kolichestvo w) with
  | Ok q => Ok (mk (ident w) q)
  | Err e => Err e
  end.

(** * Price normalisation *)

Lemma split_no_sep (sep : ascii) (s : string) :
  contains_char sep s = false -> split sep s = [s].
Proof.
  induction s as [|c s IH]; simpl; [reflexivity|].
  intros H. apply orb_false_elim in H as [Hc Hs].
  rewrite Hc, (IH Hs). reflexivity.
Qed.

Lemma split_first (sep : ascii) (a b : string) :
  contains_char sep a = false ->
  nth 0 (split sep (a ++ String sep b)) EmptyString = a.
Proof.
  induction a as [|c a IH]; simpl.
  - intros _. rewrite Ascii.eqb_refl. reflexivity.
  - intros H. apply orb_false_elim in H as [Hc Ha].
    rewrite Hc. specialize (IH Ha).
    destruct (split sep (a ++ String sep b)) as [|p ps]; simpl in *.
    + subst a. reflexivity.
    + subst p. reflexivity.
Qed.

Lemma re_sub_non_digits_filter (s : string) :
  list_ascii_of_string (re_sub_non_digits s) = digits_of s.
Proof.
  unfold digits_of.
  induction s as [|c s IH]; simpl; [reflexivity|].
  destruct (is_digit c); simpl; rewrite IH; reflexivity.
Qed.

Lemma re_sub_non_digits_empty (s : string) :
  digits_of s = [] -> re_sub_non_digits s = "".
Proof.
  intros H. rewrite <- re_sub_non_digits_filter in H.
  destruct (re_sub_non_digits s); [reflexivity | discriminate].
Qed.

(** C5. [price_conversion] keeps the text before the first ["."] and
    deletes every character of it that is not a digit: the documented
    price maps to ["5990"], ["12.50"] to ["12"], a text without ["."] to
    the digits of the whole text (["999 руб."] ends in a dot, so it is its
    dot-free part ["999 руб"] that stands for that case, and both give
    ["999"]), and a text with no digit before its first ["."] to the empty
    string. *)
Theorem price_conversion_spec :
  price_conversion "5'990.00 руб." = "5990"
  /\ price_conversion "12.50" = "12"
  /\ price_conversion "999 руб." = "999"
  /\ price_conversion "999 руб" = "999"
  /\ (forall a b : string,
        contains_char "." a = false ->
        list_ascii_of_string (price_conversion (a ++ String "." b))
        = digits_of a)
  /\ (forall s : string,
        contains_char "." s = false ->
        list_ascii_of_string (price_conversion s) = digits_of s)
  /\ (forall a b : string,
        contains_char "." a = false ->
        digits_of a = [] ->
        price_conversion (a ++ String "." b) = "").
Proof.
  repeat split; try reflexivity.
  - intros a b Ha. unfold price_conversion.
    rewrite (split_first _ _ _ Ha). apply re_sub_non_digits_filter.
  - intros s Hs. unfold price_conversion.
    rewrite (split_no_sep _ _ Hs). apply re_sub_non_digits_filter.
  - intros a b Ha Hd. unfold price_conversion.
    rewrite (split_first _ _ _ Ha). apply re_sub_non_digits_empty, Hd.
Qed.

Lemma price_conversion_spec_witness :
  list_ascii_of_string (price_conversion ("2'530" ++ String "." "00 руб."))
  = ["2"; "5"; "3"; "0"]%char
  /\ list_ascii_of_string (price_conversion "1 000 руб") = ["1"; "0"; "0"; "0"]%char
  /\ price_conversion (" руб" ++ String "." "50") = "".
Proof.
  destruct price_conversion_spec as (_ & _ & _ & _ & H1 & H2 & H3).
  split; [|split].
  - apply (H1 "2'530" "00 руб."). reflexivity.
  - apply (H2 "1 000 руб"). reflexivity.
  - apply (H3 " руб" "50"); reflexivity.
Defined.

(** * Quantity policy *)

(** C3. The quantity policy maps [">10"] to [100], ["1"] to [0], and any
    other descriptor to what [int] makes of it; so ["7"] gives [7] and
    ["0"] gives [0].  What [int] makes of a text: white space around it
    is dropped (the no-break space too, the control character U+001C
    not), a sign and single underscores between digits are read, the
    digits of other scripts count, more than 4300 digits are refused;
    only the exact text ["1"] is the policy's zero. *)
Theorem stock_of_count_spec :
  stock_of_count (PyStr ">10") = Ok 100
  /\ stock_of_count (PyStr "1") = Ok 0
  /\ stock_of_count (PyStr "7") = Ok 7
  /\ stock_of_count (PyStr "0") = Ok 0
  /\ (forall q : pyval,
        py_str q <> ">10" -> py_str q <> "1" ->
        stock_of_count q = py_int q)
  /\ stock_of_count (PyStr " 12 ") = Ok 12
  /\ stock_of_count (PyStr " 1") = Ok 1
  /\ stock_of_count (PyStr "-3") = Ok (-3)
  /\ stock_of_count (PyStr "1_000") = Ok 1000
  /\ stock_of_count (PyStr ("5" ++ nbsp)) = Ok 5
  /\ stock_of_count (PyStr "١٢") = Ok 12
  /\ stock_of_count (PyStr (zeros 4300)) = Ok 0
  /\ stock_of_count (PyStr (zeros 4301)) = Err ValueError
  /\ stock_of_count (PyStr (file_separator ++ "5")) = Err ValueError
  /\ stock_of_count (PyStr "1 2") = Err ValueError
  /\ stock_of_count (PyStr "_1") = Err ValueError
  /\ stock_of_count (PyStr "abc") = Err ValueError
  /\ stock_of_count (PyStr "") = Err ValueError
  /\ stock_of_count PyNone = Err TypeError
  /\ stock_of_count (PyInt 1) = Ok 0
  /\ stock_of_count (PyInt 7) = Ok 7.
Proof.
  do 4 (split; [reflexivity|]).
  split.
  { intros q H10 H1. unfold stock_of_count.
    destruct (String.eqb_spec (py_str q) ">10") as [E|_]; [contradiction|].
    destruct (String.eqb_spec (py_str q) "1") as [E|_]; [contradiction|].
    reflexivity. }
  repeat (split; [vm_compute; reflexivity|]).
  vm_compute. reflexivity.
Qed.

Lemma stock_of_count_spec_witness :
  stock_of_count (PyStr "12") = py_int (PyStr "12")
  /\ stock_of_count (PyStr "12") = Ok 12.
Proof.
  destruct stock_of_count_spec as (_ & _ & _ & _ & H & _).
  split.
  - apply (H (PyStr "12")); simpl; discriminate.
  - reflexivity.
Defined.

(** * Batch partitioning *)

Section Windows.

Context {A : Type}.
Variable n : nat.

Lemma window_succ (k : nat) (lst : list A) :
  window n (S k) lst = window n k (skipn n lst).
Proof.
  unfold window. rewrite skipn_skipn.
  replace (S k * n)%nat with (k * n + n)%nat by lia. reflexivity.
Qed.

Lemma windows_succ (m : nat) (lst : list A) :
  map (fun k => window n k lst) (seq 0 (S m))
  = firstn n lst :: map (fun k => window n k (skipn n lst)) (seq 0 m).
Proof.
  cbn [seq map]. f_equal.
  rewrite <- seq_shift, map_map.
  apply map_ext. intros k. apply window_succ.
Qed.

Lemma concat_windows (m : nat) :
  forall lst : list A,
    (List.length lst <= m * n)%nat ->
    List.concat (map (fun k => window n k lst) (seq 0 m)) = lst.
Proof.
  induction m as [|m IH]; intros lst Hlen.
  - destruct lst; [reflexivity | simpl in Hlen; lia].
  - rewrite windows_succ. cbn [List.concat].
    rewrite IH; [apply firstn_skipn|].
    rewrite length_skipn. lia.
Qed.

Lemma window_length_le (k : nat) (lst : list A) :
  (List.length (window n k lst) <= n)%nat.
Proof. unfold window. apply firstn_le_length. Qed.

Lemma window_length_full (k : nat) (lst : list A) :
  (S k * n <= List.length lst)%nat ->
  List.length (window n k lst) = n.
Proof.
  intros H. unfold window.
  rewrite length_firstn, length_skipn. lia.
Qed.

End Windows.

Lemma py_slice_window {A : Type} (lst : list A) (n : Z) (k : nat) :
  0 < n ->
  py_slice lst (0 + Z.of_nat k * n) (0 + Z.of_nat k * n + n)
  = window (Z.to_nat n) k lst.
Proof.
  intros Hn. unfold py_slice, window, clamp.
  set (len := Z.of_nat (List.length lst)).
  assert (Hi : 0 <= Z.of_nat k * n) by nia.
  replace (0 + Z.of_nat k * n) with (Z.of_nat k * n) by lia.
  destruct (Z.ltb_spec (Z.of_nat k * n) 0) as [?|_]; [lia|].
  destruct (Z.ltb_spec (Z.of_nat k * n + n) 0) as [?|_]; [lia|].
  replace (Z.to_nat (Z.min (Z.of_nat k * n) len))
    with (Nat.min (k * Z.to_nat n) (List.length lst)) by (subst len; nia).
  destruct (Nat.le_gt_cases (List.length lst) (k * Z.to_nat n)) as [Hout|Hin].
  - rewrite Nat.min_r by lia.
    rewrite !skipn_all2 by lia. rewrite !firstn_nil. reflexivity.
  - rewrite Nat.min_l by lia.
    destruct (Z.le_gt_cases (Z.of_nat k * n + n) len) as [Hfull|Hlast].
    + f_equal. subst len. nia.
    + rewrite Z.min_r by lia. rewrite Z.min_l by lia.
      rewrite !firstn_all2; [reflexivity | |];
        rewrite length_skipn; subst len; nia.
Qed.

(** The number of chunks [range(0, len, n)] asks for. *)
Lemma py_range_chunks (len n : Z) :
  0 <= len -> 0 < n ->
  py_range 0 len n
  = Ok (map (fun k => 0 + Z.of_nat k * n)
          (seq 0 (Z.to_nat ((len + n - 1) / n)))).
Proof.
  intros Hlen Hn. unfold py_range.
  destruct (Z.eqb_spec n 0) as [?|_]; [lia|].
  destruct (Z.ltb_spec 0 n) as [_|?]; [|lia].
  destruct (Z.ltb_spec 0 len) as [Hpos|Hz].
  - replace (len + n - 1) with (len - 0 - 1 + 1 * n) by lia.
    rewrite Z.div_add by lia. reflexivity.
  - replace len with 0 by lia. simpl.
    rewrite Z.div_small by lia. reflexivity.
Qed.

Lemma divide_windows {A : Type} (lst : list A) (n : Z) :
  0 < n ->
  divide lst n
  = Ok (map (fun k => window (Z.to_nat n) k lst)
          (seq 0 (Z.to_nat ((Z.of_nat (List.length lst) + n - 1) / n)))).
Proof.
  intros Hn. unfold divide.
  rewrite py_range_chunks by lia.
  rewrite map_map. f_equal.
  apply map_ext. intros k. apply py_slice_window, Hn.
Qed.

(** C4. For a chunk size [n > 0], [divide S n] yields consecutive windows
    of [S] whose concatenation is [S]; each has at most [n] elements, all
    but the last exactly [n]; there are [ceil(|S| / n)] of them, none for
    the empty list. *)
Theorem divide_spec {A : Type} (S : list A) (n : Z) :
  0 < n ->
  exists chunks : list (list A),
    divide S n = Ok chunks
    /\ List.concat chunks = S
    /\ Forall (fun c => Z.of_nat (List.length c) <= n) chunks
    /\ (forall k : nat,
          (k + 1 < List.length chunks)%nat ->
          Z.of_nat (List.length (nth k chunks [])) = n)
    /\ (forall k : nat,
          (k < List.length chunks)%nat ->
          nth k chunks [] = firstn (Z.to_nat n) (skipn (k * Z.to_nat n) S))
    /\ Z.of_nat (List.length chunks)
       = (Z.of_nat (List.length S) + n - 1) / n
    /\ (S = [] -> chunks = []).
Proof.
  intros Hn.
  set (len := Z.of_nat (List.length S)).
  set (m := Z.to_nat ((len + n - 1) / n)).
  assert (Hq : 0 <= (len + n - 1) / n)
    by (apply Z.div_pos; subst len; lia).
  assert (Hup : len <= ((len + n - 1) / n) * n).
  { pose proof (Z.mod_pos_bound (len + n - 1) n Hn) as Hm.
    pose proof (Z.div_mod (len + n - 1) n ltac:(lia)) as Hd. lia. }
  assert (Hlo : ((len + n - 1) / n) * n < len + n).
  { pose proof (Z.mod_pos_bound (len + n - 1) n Hn) as Hm.
    pose proof (Z.div_mod (len + n - 1) n ltac:(lia)) as Hd. lia. }
  assert (Hnth : forall k, (k < m)%nat ->
            nth k (map (fun k => window (Z.to_nat n) k S) (seq 0 m)) []
            = window (Z.to_nat n) k S).
  { intros k Hk.
    rewrite (nth_indep _ [] (window (Z.to_nat n) 0 S))
      by (rewrite length_map, length_seq; exact Hk).
    rewrite (map_nth (fun k => window (Z.to_nat n) k S)).
    rewrite seq_nth by exact Hk. reflexivity. }
  exists (map (fun k => window (Z.to_nat n) k S) (seq 0 m)).
  split; [apply divide_windows, Hn|].
  split; [apply concat_windows; subst m len; nia|].
  split.
  { apply Forall_forall. intros c Hc.
    apply in_map_iff in Hc as (k & <- & _).
    pose proof (window_length_le (Z.to_nat n) k S). lia. }
  split.
  { intros k Hk. rewrite length_map, length_seq in Hk.
    rewrite Hnth by lia.
    rewrite window_length_full by (try lia; subst m len; nia). lia. }
  split.
  { intros k Hk. rewrite length_map, length_seq in Hk.
    apply Hnth, Hk. }
  split.
  { rewrite length_map, length_seq. subst m. lia. }
  intros ->. subst m len. simpl.
  rewrite Z.div_small by lia. reflexivity.
Qed.

Lemma divide_spec_witness :
  exists chunks : list (list Z),
    divide [1; 2; 3; 4; 5] 2 = Ok chunks
    /\ List.concat chunks = [1; 2; 3; 4; 5]
    /\ Forall (fun c => Z.of_nat (List.length c) <= 2) chunks
    /\ (forall k : nat,
          (k + 1 < List.length chunks)%nat ->
          Z.of_nat (List.length (nth k chunks [])) = 2)
    /\ (forall k : nat,
          (k < List.length chunks)%nat ->
          nth k chunks []
          = firstn (Z.to_nat 2) (skipn (k * Z.to_nat 2) [1; 2; 3; 4; 5]))
    /\ Z.of_nat (List.length chunks)
       = (Z.of_nat (List.length [1; 2; 3; 4; 5]) + 2 - 1) / 2
    /\ ([1; 2; 3; 4; 5] = [] -> chunks = []).
Proof.
  apply (divide_spec [1; 2; 3; 4; 5] 2). lia.
Defined.

(** * Stock and price reconciliation *)

(** ** The list operations *)

Lemma py_in_In (x : string) (lst : list string) :
  py_in x lst = true <-> In x lst.
Proof.
  unfold py_in. rewrite existsb_exists. split.
  - intros (y & Hy & E). apply String.eqb_eq in E. subst y. exact Hy.
  - intros H. exists x. split; [exact H | apply String.eqb_refl].
Qed.

Lemma py_in_false (x : string) (lst : list string) :
  py_in x lst = false <-> ~ In x lst.
Proof.
  rewrite <- py_in_In. destruct (py_in x lst); split; intros H;
    try discriminate; try reflexivity; try (intros E; discriminate).
  exfalso. apply H. reflexivity.
Qed.

Lemma py_remove_In (x : string) (lst : list string) :
  In x lst -> exists lst', py_remove x lst = Some lst'.
Proof.
  induction lst as [|y lst IH]; simpl; [contradiction|].
  intros [E | H].
  - subst y. rewrite String.eqb_refl. eauto.
  - destruct (String.eqb y x); [eauto|].
    destruct (IH H) as (lst' & ->). simpl. eauto.
Qed.

Lemma py_remove_Permutation (x : string) (lst lst' : list string) :
  py_remove x lst = Some lst' -> Permutation lst (x :: lst').
Proof.
  revert lst'. induction lst as [|y lst IH]; simpl; intros lst' H.
  - discriminate.
  - destruct (String.eqb_spec y x) as [E | N].
    + injection H as <-. subst y. reflexivity.
    + destruct (py_remove x lst) as [l|]; [|discriminate].
      injection H as <-. rewrite (IH l eq_refl). apply perm_swap.
Qed.

Lemma py_remove_count (x : string) (lst lst' : list string) (y : string) :
  py_remove x lst = Some lst' ->
  count_occ string_dec lst y
  = (count_occ string_dec lst' y + if string_dec x y then 1 else 0)%nat.
Proof.
  intros H. apply py_remove_Permutation in H.
  rewrite (proj1 (Permutation_count_occ string_dec _ _) H y).
  simpl. destruct (string_dec x y); lia.
Qed.

Lemma py_remove_NoDup (x : string) (lst lst' : list string) :
  NoDup lst -> py_remove x lst = Some lst' ->
  NoDup lst' /\ ~ In x lst'.
Proof.
  intros Hnd H. apply py_remove_Permutation in H.
  apply (Permutation_NoDup H) in Hnd.
  inversion Hnd; subst. split; assumption.
Qed.

(** ** The match pass *)

Section StockPass.

Context {update : Type}.
Variable mk : string -> Z -> update.
Variable uid : update -> string.
Variable uqty : update -> Z.
Hypothesis uid_mk : forall x q, uid (mk x q) = x.
Hypothesis uqty_mk : forall x q, uqty (mk x q) = q.

(** Records already in [stocks] stay in front of the ones a run adds. *)
Lemma match_pass_acc (rows : list watch) :
  forall (acc : list update) (ids : list string),
    match_pass mk rows acc ids
    = match match_pass mk rows [] ids with
      | (Ok e, i) => (Ok (acc ++ e), i)
      | (Err x, i) => (Err x, i)
      end.
Proof.
  induction rows as [|w rows IH]; intros acc ids.
  - simpl. unfold ret. rewrite app_nil_r. reflexivity.
  - cbn [match_pass]. unfold bind, contains, lift, remove.
    destruct (py_in (py_str (Kod w)) ids); [|apply IH].
    destruct (stock_of_count (Kolichestvo w)) as [q|e]; [|reflexivity].
    destruct (py_remove (py_str (Kod w)) ids) as [ids'|]; [|reflexivity].
    rewrite IH. rewrite (IH ([] ++ _)).
    destruct (match_pass mk rows [] ids') as [[e|x] i]; [|reflexivity].
    rewrite <- app_assoc. reflexivity.
Qed.

Lemma match_pass_step (w : watch) (rows : list watch) (ids : list string) :
  match_pass mk (w :: rows) [] ids
  = if py_in (ident w) ids then
      match stock_of_count (Kolichestvo w) with
      | Ok q =>
          match py_remove (ident w) ids with
          | Some ids' =>
              match match_pass mk rows [] ids' with
              | (Ok e, i) => (Ok (mk (ident w) q :: e), i)
              | (Err x, i) => (Err x, i)
              end
          | None => (Err ValueError, ids)
          end
      | Err e => (Err e, ids)
      end
    else match_pass mk rows [] ids.
Proof.
  cbn [match_pass]. unfold bind, contains, lift, remove, ident.
  destruct (py_in (py_str (Kod w)) ids); [|reflexivity].
  destruct (stock_of_count (Kolichestvo w)) as [q|e]; [|reflexivity].
  destruct (py_remove (py_str (Kod w)) ids) as [ids'|]; [|reflexivity].
  rewrite match_pass_acc. reflexivity.
Qed.

(** Case analysis of one turn of the loop on a successful run. *)
Lemma match_pass_step_ok (w : watch) (rows : list watch)
  (ids ids' : list string) (out : list update) :
  match_pass mk (w :: rows) [] ids = (Ok out, ids') ->
  (py_in (ident w) ids = false
   /\ match_pass mk rows [] ids = (Ok out, ids'))
  \/ (exists q ids1 out1,
        py_in (ident w) ids = true
        /\ stock_of_count (Kolichestvo w) = Ok q
        /\ py_remove (ident w) ids = Some ids1
        /\ match_pass mk rows [] ids1 = (Ok out1, ids')
        /\ out = mk (ident w) q :: out1).
Proof.
  rewrite match_pass_step.
  destruct (py_in (ident w) ids); [|intros H; left; auto].
  destruct (stock_of_count (Kolichestvo w)) as [q|e]; [|discriminate].
  destruct (py_remove (ident w) ids) as [ids1|]; [|discriminate].
  destruct (match_pass mk rows [] ids1) as [[e|x] i] eqn:E; [|discriminate].
  intros H. injection H as <- <-. right.
  exists q, ids1, e. repeat split. exact E.
Qed.

(** Emitted identifiers and the identifiers left in the list make up
    the list the pass started from. *)
Lemma match_pass_Permutation (rows : list watch) :
  forall (ids ids' : list string) (out : list update),
    match_pass mk rows [] ids = (Ok out, ids') ->
    Permutation (map uid out ++ ids') ids.
Proof.
  induction rows as [|w rows IH]; intros ids ids' out H.
  - injection H as <- <-. reflexivity.
  - apply match_pass_step_ok in H
      as [[_ H] | (q & ids1 & out1 & _ & _ & Hrm & H & ->)].
    + apply (IH _ _ _ H).
    + apply py_remove_Permutation in Hrm.
      rewrite Hrm. simpl. rewrite uid_mk.
      apply perm_skip. apply (IH _ _ _ H).
Qed.

Lemma first_match_skip (x : string) (w : watch) (rows : list watch) :
  ident w <> x -> first_match x (w :: rows) = first_match x rows.
Proof.
  intros N. unfold first_match. simpl.
  destruct (String.eqb_spec (ident w) x); [contradiction | reflexivity].
Qed.

Lemma first_match_here (w : watch) (rows : list watch) :
  first_match (ident w) (w :: rows) = Some w.
Proof.
  unfold first_match. simpl. rewrite String.eqb_refl. reflexivity.
Qed.

(** On a list without duplicates every emitted record answers the
    first row of its identifier, and no row carries an identifier that
    is left over. *)
Lemma match_pass_first_match (rows : list watch) :
  forall (ids ids' : list string) (out : list update),
    NoDup ids ->
    match_pass mk rows [] ids = (Ok out, ids') ->
    NoDup ids'
    /\ (forall s, In s out -> expected_stock rows (uid s) = Ok (uqty s))
    /\ (forall x, In x ids' -> first_match x rows = None).
Proof.
  induction rows as [|w rows IH]; intros ids ids' out Hnd H.
  - injection H as <- <-. split; [exact Hnd|].
    split; [intros s []| reflexivity].
  - pose proof (match_pass_Permutation _ _ _ _ H) as Hperm.
    apply match_pass_step_ok in H
      as [[Hin H] | (q & ids1 & out1 & Hin & Hq & Hrm & H & ->)].
    + apply py_in_false in Hin.
      destruct (IH _ _ _ Hnd H) as (Hnd' & Hout & Hrest).
      assert (Hne : forall x, In x ids -> ident w <> x)
        by (intros x Hx E; subst x; contradiction).
      split; [exact Hnd'|]. split.
      * intros s Hs. unfold expected_stock.
        rewrite first_match_skip; [apply Hout, Hs|].
        apply Hne. apply (Permutation_in _ Hperm).
        apply in_or_app. left. apply in_map, Hs.
      * intros x Hx. rewrite first_match_skip; [apply Hrest, Hx|].
        apply Hne. apply (Permutation_in _ Hperm).
        apply in_or_app. right. exact Hx.
    + destruct (py_remove_NoDup _ _ _ Hnd Hrm) as (Hnd1 & Hnot).
      pose proof (match_pass_Permutation _ _ _ _ H) as Hperm1.
      destruct (IH _ _ _ Hnd1 H) as (Hnd' & Hout & Hrest).
      assert (Hne : forall x, In x ids1 -> ident w <> x)
        by (intros x Hx E; subst x; contradiction).
      split; [exact Hnd'|]. split.
      * intros s [<- | Hs].
        -- unfold expected_stock.
           rewrite uid_mk, uqty_mk, first_match_here. exact Hq.
        -- unfold expected_stock.
           rewrite first_match_skip; [apply Hout, Hs|].
           apply Hne. apply (Permutation_in _ Hperm1).
           apply in_or_app. left. apply in_map, Hs.
      * intros x Hx. rewrite first_match_skip; [apply Hrest, Hx|].
        apply Hne. apply (Permutation_in _ Hperm1).
        apply in_or_app. right. exact Hx.
Qed.

(** Whatever the list, an emitted quantity is the policy's answer for
    some row of that identifier. *)
Lemma match_pass_from_row (rows : list watch) :
  forall (ids ids' : list string) (out : list update),
    match_pass mk rows [] ids = (Ok out, ids') ->
    forall s, In s out ->
      exists w, In w rows /\ ident w = uid s
                /\ stock_of_count (Kolichestvo w) = Ok (uqty s).
Proof.
  induction rows as [|w rows IH]; intros ids ids' out H s Hs.
  - injection H as <- <-. destruct Hs.
  - apply match_pass_step_ok in H
      as [[_ H] | (q & ids1 & out1 & _ & Hq & _ & H & ->)].
    + destruct (IH _ _ _ H s Hs) as (w' & Hw' & E).
      exists w'. split; [right; exact Hw' | exact E].
    + destruct Hs as [<- | Hs].
      * exists w. rewrite uid_mk, uqty_mk. split; [left|]; auto.
      * destruct (IH _ _ _ H s Hs) as (w' & Hw' & E).
        exists w'. split; [right; exact Hw' | exact E].
Qed.

End StockPass.

(** ** When the match pass raises *)

Lemma stock_of_count_Err (q : pyval) :
  (exists e, stock_of_count q = Err e) <-> unparseable q.
Proof.
  unfold stock_of_count, unparseable.
  destruct (String.eqb_spec (py_str q) ">10") as [E10 | N10].
  - split; [intros (e & H); discriminate | intros (N & _); contradiction].
  - destruct (String.eqb_spec (py_str q) "1") as [E1 | N1].
    + split; [intros (e & H); discriminate|].
      intros (_ & N & _); contradiction.
    + split; [intros H; auto | intros (_ & _ & H); exact H].
Qed.

Lemma stock_of_count_exn (q : pyval) (e : exn) :
  stock_of_count q = Err e -> e = ValueError \/ e = TypeError.
Proof.
  unfold stock_of_count.
  destruct (py_str q =? ">10")%string; [discriminate|].
  destruct (py_str q =? "1")%string; [discriminate|].
  destruct q as [|s|z]; simpl.
  - intros H. injection H as <-. right. reflexivity.
  - destruct (int_of_string s); [discriminate|].
    intros H. injection H as <-. left. reflexivity.
  - discriminate.
Qed.

Lemma still_known_nil (K : list string) (w : watch) :
  still_known K [] w <-> In (ident w) K.
Proof.
  unfold still_known. simpl. symmetry. apply count_occ_In.
Qed.

Lemma still_known_cons_absent (K : list string) (w0 : watch)
  (before : list watch) (w : watch) :
  ~ In (ident w0) K ->
  still_known K (w0 :: before) w <-> still_known K before w.
Proof.
  intros Hout. unfold still_known. simpl.
  destruct (string_dec (ident w0) (ident w)) as [E | N]; [|reflexivity].
  rewrite <- E.
  rewrite (proj1 (count_occ_not_In string_dec K (ident w0)) Hout).
  split; intros H; lia.
Qed.

Lemma still_known_cons_removed (K K' : list string) (w0 : watch)
  (before : list watch) (w : watch) :
  py_remove (ident w0) K = Some K' ->
  still_known K (w0 :: before) w <-> still_known K' before w.
Proof.
  intros Hrm. unfold still_known. simpl.
  rewrite (py_remove_count _ _ _ (ident w) Hrm).
  destruct (string_dec (ident w0) (ident w)); split; intros H; lia.
Qed.

Section StockErrors.

Context {update : Type}.
Variable mk : string -> Z -> update.

(** The pass raises exactly when some row that still finds its
    identifier in the list has a quantity [int] rejects. *)
Lemma match_pass_raises (rows : list watch) :
  forall ids : list string,
    (exists e, fst (match_pass mk rows [] ids) = Err e)
    <-> (exists before w after,
           rows = before ++ w :: after
           /\ still_known ids before w
           /\ unparseable (Kolichestvo w)).
Proof.
  induction rows as [|w0 rows IH]; intros ids.
  - split.
    + intros (e & H). discriminate.
    + intros (before & w & after & H & _). destruct before; discriminate.
  - rewrite match_pass_step.
    destruct (py_in (ident w0) ids) eqn:Hin.
    + apply py_in_In in Hin.
      destruct (stock_of_count (Kolichestvo w0)) as [q|e] eqn:Hq.
      * destruct (py_remove_In _ _ Hin) as (ids1 & Hrm). rewrite Hrm.
        assert (Hgood : ~ unparseable (Kolichestvo w0)).
        { intros Hbad. apply stock_of_count_Err in Hbad as (e & He).
          congruence. }
        transitivity (exists e, fst (match_pass mk rows [] ids1) = Err e).
        { destruct (match_pass mk rows [] ids1) as [[o|x] i]; simpl;
            [split; intros (e & H); discriminate | reflexivity]. }
        rewrite IH. split.
        -- intros (before & w & after & -> & Hk & Hbad).
           exists (w0 :: before), w, after. split; [reflexivity|].
           split; [|exact Hbad].
           apply (still_known_cons_removed _ _ _ _ _ Hrm), Hk.
        -- intros (before & w & after & E & Hk & Hbad).
           destruct before as [|w1 before]; simpl in E.
           ++ injection E as <- <-. contradiction.
           ++ injection E as <- ->.
              exists before, w, after. split; [reflexivity|].
              split; [|exact Hbad].
              apply (still_known_cons_removed _ _ _ _ _ Hrm), Hk.
      * split; [|intros _; exists e; reflexivity].
        intros _. exists [], w0, rows. split; [reflexivity|].
        split; [apply still_known_nil, Hin|].
        apply stock_of_count_Err. exists e. exact Hq.
    + apply py_in_false in Hin. rewrite IH. split.
      * intros (before & w & after & -> & Hk & Hbad).
        exists (w0 :: before), w, after. split; [reflexivity|].
        split; [|exact Hbad].
        apply (still_known_cons_absent _ _ _ _ Hin), Hk.
      * intros (before & w & after & E & Hk & Hbad).
        destruct before as [|w1 before]; simpl in E.
        -- injection E as <- <-.
           apply still_known_nil in Hk. contradiction.
        -- injection E as <- ->.
           exists before, w, after. split; [reflexivity|].
           split; [|exact Hbad].
           apply (still_known_cons_absent _ _ _ _ Hin), Hk.
Qed.

Lemma match_pass_exn (rows : list watch) :
  forall (ids : list string) (e : exn),
    fst (match_pass mk rows [] ids) = Err e ->
    e = ValueError \/ e = TypeError.
Proof.
  induction rows as [|w0 rows IH]; intros ids e.
  - discriminate.
  - rewrite match_pass_step.
    destruct (py_in (ident w0) ids) eqn:Hin; [|apply IH].
    apply py_in_In in Hin.
    destruct (stock_of_count (Kolichestvo w0)) as [q|e0] eqn:Hq.
    + destruct (py_remove_In _ _ Hin) as (ids1 & ->).
      specialize (IH ids1 e).
      destruct (match_pass mk rows [] ids1) as [[o|x] i];
        [discriminate | exact IH].
    + simpl. intros H. injection H as <-.
      apply (stock_of_count_exn _ _ Hq).
Qed.

(** [create_stocks] raises exactly when its first loop does. *)
Lemma create_stocks_with_fst (rows : list watch) (ids : list string) :
  create_stocks_with mk rows ids
  = match match_pass mk rows [] ids with
    | (Ok out, ids') =>
        (Ok (out ++ map (fun x => mk x 0) ids'), ids')
    | (Err e, ids') => (Err e, ids')
    end.
Proof.
  unfold create_stocks_with, bind, read_list, ret.
  destruct (match_pass mk rows [] ids) as [[out|e] ids']; reflexivity.
Qed.

Lemma create_stocks_with_raises (rows : list watch) (ids : list string) :
  (exists e, fst (create_stocks_with mk rows ids) = Err e)
  <-> (exists before w after,
         rows = before ++ w :: after
         /\ still_known ids before w
         /\ unparseable (Kolichestvo w)).
Proof.
  rewrite <- match_pass_raises, create_stocks_with_fst.
  destruct (match_pass mk rows [] ids) as [[out|e] ids']; simpl.
  - split; intros (e & H); discriminate.
  - reflexivity.
Qed.

Lemma create_stocks_with_exn (rows : list watch) (ids : list string)
  (e : exn) :
  fst (create_stocks_with mk rows ids) = Err e ->
  e = ValueError \/ e = TypeError.
Proof.
  rewrite create_stocks_with_fst.
  pose proof (match_pass_exn rows ids e) as H.
  destruct (match_pass mk rows [] ids) as [[out|x] ids']; simpl in *.
  - discriminate.
  - exact H.
Qed.

End StockErrors.

(** ** The whole of [create_stocks] *)

Lemma stock_of_count_Ok (q : pyval) (z : Z) :
  stock_of_count q = Ok z -> z = 100 \/ z = 0 \/ py_int q = Ok z.
Proof.
  unfold stock_of_count.
  destruct (py_str q =? ">10")%string;
    [intros H; injection H as <-; auto|].
  destruct (py_str q =? "1")%string;
    [intros H; injection H as <-; auto|].
  auto.
Qed.

Section StockTotal.

Context {update : Type}.
Variable mk : string -> Z -> update.
Variable uid : update -> string.
Variable uqty : update -> Z.
Hypothesis uid_mk : forall x q, uid (mk x q) = x.
Hypothesis uqty_mk : forall x q, uqty (mk x q) = q.

Lemma create_stocks_with_Ok (rows : list watch) (ids ids' : list string)
  (stocks : list update) :
  create_stocks_with mk rows ids = (Ok stocks, ids') ->
  exists out,
    match_pass mk rows [] ids = (Ok out, ids')
    /\ stocks = out ++ map (fun x => mk x 0) ids'.
Proof.
  rewrite create_stocks_with_fst.
  destruct (match_pass mk rows [] ids) as [[out|e] i]; [|discriminate].
  intros H. injection H as <- <-. exists out. auto.
Qed.

Lemma map_uid_defaults (ids : list string) :
  map uid (map (fun x => mk x 0) ids) = ids.
Proof.
  rewrite map_map. rewrite <- (map_id ids) at 2.
  apply map_ext. intros x. apply uid_mk.
Qed.

Lemma create_stocks_with_Permutation (rows : list watch)
  (ids ids' : list string) (stocks : list update) :
  create_stocks_with mk rows ids = (Ok stocks, ids') ->
  Permutation (map uid stocks) ids.
Proof.
  intros H. apply create_stocks_with_Ok in H as (out & H & ->).
  rewrite map_app, map_uid_defaults.
  apply (match_pass_Permutation mk uid uid_mk _ _ _ _ H).
Qed.

Lemma create_stocks_with_once (rows : list watch)
  (ids ids' : list string) (stocks : list update) :
  NoDup ids ->
  create_stocks_with mk rows ids = (Ok stocks, ids') ->
  List.length stocks = List.length ids
  /\ Permutation (map uid stocks) ids
  /\ (forall x, In x ids ->
        count_occ string_dec (map uid stocks) x = 1%nat)
  /\ (forall s, In s stocks ->
        expected_stock rows (uid s) = Ok (uqty s)).
Proof.
  intros Hnd H.
  pose proof (create_stocks_with_Permutation _ _ _ _ H) as Hperm.
  split.
  { rewrite <- (length_map uid). apply Permutation_length, Hperm. }
  split; [exact Hperm|].
  split.
  { intros x Hx.
    rewrite (proj1 (Permutation_count_occ string_dec _ _) Hperm x).
    apply (proj1 (NoDup_count_occ' string_dec ids) Hnd x Hx). }
  apply create_stocks_with_Ok in H as (out & H & ->).
  destruct (match_pass_first_match mk uid uqty uid_mk uqty_mk
              _ _ _ _ Hnd H) as (_ & Hout & Hrest).
  intros s Hs. apply in_app_or in Hs as [Hs | Hs].
  - apply Hout, Hs.
  - apply in_map_iff in Hs as (x & <- & Hx).
    unfold expected_stock. rewrite uid_mk, uqty_mk.
    rewrite (Hrest x Hx). reflexivity.
Qed.

Lemma create_stocks_with_quantity (rows : list watch)
  (ids ids' : list string) (stocks : list update) :
  create_stocks_with mk rows ids = (Ok stocks, ids') ->
  forall s, In s stocks ->
    uqty s = 100 \/ uqty s = 0
    \/ exists w, In w rows /\ ident w = uid s
                 /\ py_int (Kolichestvo w) = Ok (uqty s).
Proof.
  intros H s Hs. apply create_stocks_with_Ok in H as (out & H & ->).
  apply in_app_or in Hs as [Hs | Hs].
  - destruct (match_pass_from_row mk uid uqty uid_mk uqty_mk
                _ _ _ _ H s Hs) as (w & Hw & Hid & Hq).
    apply stock_of_count_Ok in Hq as [E | [E | E]]; auto.
    right. right. exists w. auto.
  - apply in_map_iff in Hs as (x & <- & _).
    rewrite uqty_mk. auto.
Qed.

Lemma create_stocks_with_nonneg (rows : list watch)
  (ids ids' : list string) (stocks : list update) :
  (forall w z, In w rows -> py_int (Kolichestvo w) = Ok z -> 0 <= z) ->
  create_stocks_with mk rows ids = (Ok stocks, ids') ->
  Forall (fun s => 0 <= uqty s) stocks.
Proof.
  intros Hpos H. apply Forall_forall. intros s Hs.
  destruct (create_stocks_with_quantity _ _ _ _ H s Hs)
    as [E | [E | (w & Hw & _ & E)]].
  - lia.
  - lia.
  - apply (Hpos w _ Hw E).
Qed.

End StockTotal.

(** ** The price pass *)

Section PricePass.

Context {price_update : Type}.
Variable mk : string -> pyval -> result price_update.
Variable pid : price_update -> string.
Hypothesis pid_mk : forall x v p, mk x v = Ok p -> pid p = x.

(** The list is read and never written. *)
Lemma price_pass_frame (rows : list watch) :
  forall (acc : list price_update) (ids : list string),
    snd (price_pass mk rows acc ids) = ids.
Proof.
  induction rows as [|w rows IH]; intros acc ids.
  - reflexivity.
  - cbn [price_pass]. unfold bind, contains, lift.
    destruct (py_in (py_str (Kod w)) ids); [|apply IH].
    destruct (mk (py_str (Kod w)) (Tsena w)); [apply IH | reflexivity].
Qed.

(** One price record per row whose identifier is in the list, in the
    order of the rows. *)
Lemma price_pass_ids (rows : list watch) :
  forall (acc out : list price_update) (ids ids' : list string),
    price_pass mk rows acc ids = (Ok out, ids') ->
    map pid out
    = map pid acc ++ filter (fun x => py_in x ids) (map ident rows).
Proof.
  induction rows as [|w rows IH]; intros acc out ids ids' H.
  - injection H as <- <-. simpl. rewrite app_nil_r. reflexivity.
  - cbn [price_pass] in H. unfold bind, contains, lift in H.
    cbn [map filter]. fold (ident w) in *.
    destruct (py_in (ident w) ids); [|apply (IH _ _ _ _ H)].
    destruct (mk (ident w) (Tsena w)) as [p|e] eqn:Hp; [|discriminate].
    rewrite (IH _ _ _ _ H), map_app. cbn [map].
    rewrite (pid_mk _ _ _ Hp), <- app_assoc. reflexivity.
Qed.

End PricePass.

(** ** The two channels *)

Lemma NoDup_scenario_ids : NoDup scenario_ids.
Proof.
  unfold scenario_ids.
  repeat constructor; simpl; intuition discriminate.
Qed.

(** C1. On a list [K] of known identifiers without duplicates, a run of
    [create_stocks] that succeeds emits [|K|] records; every identifier of
    [K] is carried by exactly one of them; a record carries the policy's
    quantity for the first row of its identifier, and zero when no row
    has it. *)
Theorem create_stocks_exactly_once (K : list string) (R : list watch) :
  NoDup K ->
  (forall stocks K',
      Seller.create_stocks R K = (Ok stocks, K') ->
      List.length stocks = List.length K
      /\ Permutation (map Seller.s_offer_id stocks) K
      /\ (forall x, In x K ->
            count_occ string_dec (map Seller.s_offer_id stocks) x = 1%nat)
      /\ (forall s, In s stocks ->
            expected_stock R (Seller.s_offer_id s) = Ok (Seller.s_stock s)))
  /\ (forall warehouse_id date stocks K',
        Market.create_stocks R warehouse_id date K = (Ok stocks, K') ->
        List.length stocks = List.length K
        /\ Permutation (map Market.sku stocks) K
        /\ (forall x, In x K ->
              count_occ string_dec (map Market.sku stocks) x = 1%nat)
        /\ (forall s, In s stocks ->
              expected_stock R (Market.sku s) = Ok (Market.stock_count s))).
Proof.
  intros Hnd. split.
  - intros stocks K' H.
    exact (create_stocks_with_once Seller.mk_stock Seller.s_offer_id
             Seller.s_stock
             (fun _ _ => eq_refl) (fun _ _ => eq_refl) R K K' stocks Hnd H).
  - intros warehouse_id date stocks K' H.
    exact (create_stocks_with_once (Market.mk_stock warehouse_id date)
             Market.sku Market.stock_count
             (fun _ _ => eq_refl) (fun _ _ => eq_refl) R K K' stocks Hnd H).
Qed.

Lemma create_stocks_exactly_once_witness :
  List.length
    [Seller.mk_stock "A" 100; Seller.mk_stock "B" 0; Seller.mk_stock "C" 0]
  = List.length scenario_ids
  /\ Permutation
       (map Seller.s_offer_id
          [Seller.mk_stock "A" 100; Seller.mk_stock "B" 0;
           Seller.mk_stock "C" 0])
       scenario_ids
  /\ (forall x, In x scenario_ids ->
        count_occ string_dec
          (map Seller.s_offer_id
             [Seller.mk_stock "A" 100; Seller.mk_stock "B" 0;
              Seller.mk_stock "C" 0]) x = 1%nat)
  /\ (forall s,
        In s [Seller.mk_stock "A" 100; Seller.mk_stock "B" 0;
              Seller.mk_stock "C" 0] ->
        expected_stock scenario_rows (Seller.s_offer_id s)
        = Ok (Seller.s_stock s)).
Proof.
  destruct (create_stocks_exactly_once scenario_ids scenario_rows
              NoDup_scenario_ids) as [HS _].
  apply (HS _ ["B"; "C"]). reflexivity.
Defined.

(** C2. The end-to-end scenario: known identifiers [A, B, C] and the one
    row [A, ">10", "5'990.00 руб."].  [create_stocks] answers [A -> 100],
    [B -> 0], [C -> 0] in this order and leaves [B, C] in the list;
    [create_prices], given the identifiers [A, B, C], answers one price
    record, for [A], with the price 5990. *)
Theorem scenario_updates :
  Seller.create_stocks scenario_rows scenario_ids
  = (Ok [ {| Seller.s_offer_id := "A"; Seller.s_stock := 100 |};
          {| Seller.s_offer_id := "B"; Seller.s_stock := 0 |};
          {| Seller.s_offer_id := "C"; Seller.s_stock := 0 |} ],
     ["B"; "C"])
  /\ (forall warehouse_id date,
        Market.create_stocks scenario_rows warehouse_id date scenario_ids
        = (Ok [ Market.mk_stock warehouse_id date "A" 100;
                Market.mk_stock warehouse_id date "B" 0;
                Market.mk_stock warehouse_id date "C" 0 ],
           ["B"; "C"]))
  /\ Seller.create_prices scenario_rows scenario_ids
     = (Ok [ {| Seller.auto_action_enabled := "UNKNOWN";
                Seller.currency_code := "RUB";
                Seller.p_offer_id := "A";
                Seller.old_price := "0";
                Seller.price := "5990" |} ],
        scenario_ids)
  /\ Market.create_prices scenario_rows scenario_ids
     = (Ok [ {| Market.id := "A";
                Market.price := {| Market.value := 5990;
                                   Market.currencyId := "RUR" |} |} ],
        scenario_ids).
Proof.
  split; [reflexivity|].
  split; [intros warehouse_id date; reflexivity|].
  split; reflexivity.
Qed.

(** In [seller.main] the price call receives the list the stock call has
    already emptied of its matches: in the scenario no price record is
    left. *)
Remark main_updates_scenario :
  fst (Seller.main_updates scenario_rows scenario_ids)
  = Ok ([ {| Seller.s_offer_id := "A"; Seller.s_stock := 100 |};
          {| Seller.s_offer_id := "B"; Seller.s_stock := 0 |};
          {| Seller.s_offer_id := "C"; Seller.s_stock := 0 |} ],
        []).
Proof. reflexivity. Qed.

(** ** Quantity errors *)

Lemma still_known_NoDup (K : list string) (before : list watch)
  (w : watch) :
  NoDup K ->
  still_known K before w
  <-> In (ident w) K /\ ~ In (ident w) (map ident before).
Proof.
  intros Hnd. unfold still_known.
  pose proof (proj1 (NoDup_count_occ string_dec K) Hnd (ident w)) as Hle.
  rewrite (count_occ_In string_dec K (ident w)).
  rewrite (count_occ_not_In string_dec (map ident before) (ident w)).
  lia.
Qed.

(** C7, as the code has it.  [create_stocks] raises exactly when some row
    with a quantity that is neither [">10"] nor ["1"] nor accepted by
    [int] still finds its identifier in the list when its turn comes: the
    list holds the identifier more often than the rows before carry it
    (on a list without duplicates: the identifier is known and no earlier
    row has it).  The exception is the [ValueError] or [TypeError] of
    [int] and replaces the whole result; an absent or empty quantity is
    such a quantity; and when every row with a known identifier has a
    good quantity the run succeeds, whatever the other rows hold.  A
    quantity followed by a no-break space is read, one preceded by the
    control character U+001C raises. *)
Theorem create_stocks_raises (R : list watch) (K : list string) :
  ((exists e, fst (Seller.create_stocks R K) = Err e)
   <-> (exists before w after,
          R = before ++ w :: after
          /\ still_known K before w
          /\ unparseable (Kolichestvo w)))
  /\ (forall warehouse_id date,
        (exists e,
            fst (Market.create_stocks R warehouse_id date K) = Err e)
        <-> (exists before w after,
               R = before ++ w :: after
               /\ still_known K before w
               /\ unparseable (Kolichestvo w)))
  /\ (forall e,
        fst (Seller.create_stocks R K) = Err e ->
        e = ValueError \/ e = TypeError)
  /\ (forall warehouse_id date e,
        fst (Market.create_stocks R warehouse_id date K) = Err e ->
        e = ValueError \/ e = TypeError)
  /\ ((forall w, In w R -> In (ident w) K ->
         ~ unparseable (Kolichestvo w)) ->
      (exists stocks, fst (Seller.create_stocks R K) = Ok stocks)
      /\ (forall warehouse_id date,
            exists stocks,
              fst (Market.create_stocks R warehouse_id date K) = Ok stocks))
  /\ (NoDup K ->
      forall before w,
        still_known K before w
        <-> In (ident w) K /\ ~ In (ident w) (map ident before))
  /\ unparseable PyNone
  /\ unparseable (PyStr "")
  /\ Seller.create_stocks [row "A" ("5" ++ nbsp) "1.00"] ["A"]
     = (Ok [Seller.mk_stock "A" 5], [])
  /\ fst (Seller.create_stocks [row "A" (file_separator ++ "5") "1.00"]
            ["A"])
     = Err ValueError.
Proof.
  assert (Hsafe : forall (U : Type) (mk : string -> Z -> U),
             (forall w, In w R -> In (ident w) K ->
                ~ unparseable (Kolichestvo w)) ->
             exists stocks, fst (create_stocks_with mk R K) = Ok stocks).
  { intros U mk Hgood.
    destruct (fst (create_stocks_with mk R K)) as [stocks|e] eqn:E;
      [eauto|].
    exfalso.
    destruct (proj1 (create_stocks_with_raises mk R K))
      as (before & w & after & -> & Hk & Hbad); [eauto|].
    apply (Hgood w); [apply in_elt | | exact Hbad].
    apply (count_occ_In string_dec). unfold still_known in Hk. lia. }
  split; [apply create_stocks_with_raises|].
  split; [intros; apply create_stocks_with_raises|].
  split; [intros e; apply create_stocks_with_exn|].
  split; [intros warehouse_id date e; apply create_stocks_with_exn|].
  split.
  { intros Hgood. split; [|intros warehouse_id date]; apply Hsafe, Hgood. }
  split; [intros Hnd before w; apply still_known_NoDup, Hnd|].
  split.
  { repeat split; try discriminate. exists TypeError. reflexivity. }
  split.
  { repeat split; try discriminate. exists ValueError. reflexivity. }
  split; vm_compute; reflexivity.
Qed.

Lemma create_stocks_raises_witness :
  (exists stocks,
      fst (Seller.create_stocks (row "Z" "abc" "1.00" :: scenario_rows)
             scenario_ids) = Ok stocks)
  /\ (still_known scenario_ids scenario_rows (row "B" "" "")
      <-> In "B" scenario_ids /\ ~ In "B" (map ident scenario_rows)).
Proof.
  destruct (create_stocks_raises (row "Z" "abc" "1.00" :: scenario_rows)
              scenario_ids) as (_ & _ & _ & _ & Hsafe & _).
  destruct (create_stocks_raises scenario_rows scenario_ids)
    as (_ & _ & _ & _ & _ & Hnd & _).
  split.
  - apply Hsafe.
    intros w [<- | [<- | []]] Hin (H10 & H1 & _); simpl in *.
    + intuition discriminate.
    + apply H10. reflexivity.
  - apply (Hnd NoDup_scenario_ids scenario_rows (row "B" "" "")).
Defined.

(** C7, as it is worded: a row whose identifier is in the known list and
    whose quantity [int] rejects does not raise when an earlier row has
    consumed the identifier. *)
Lemma create_stocks_raises_counterexample :
  (exists w,
      In w repeated_rows /\ In (ident w) ["A"]
      /\ unparseable (Kolichestvo w))
  /\ Seller.create_stocks repeated_rows ["A"]
     = (Ok [Seller.mk_stock "A" 5], [])
  /\ (forall warehouse_id date,
        Market.create_stocks repeated_rows warehouse_id date ["A"]
        = (Ok [Market.mk_stock warehouse_id date "A" 5], [])).
Proof.
  split; [|split; [reflexivity | intros; reflexivity]].
  exists (row "A" "abc" "200.00").
  split; [right; left; reflexivity|].
  split; [left; reflexivity|].
  repeat split; try discriminate. exists ValueError. reflexivity.
Qed.

(** ** Quantities *)

(** C8, as the code has it.  A record of a successful run carries [100],
    [0], or the integer [int] reads in the quantity of a row of its
    identifier; so all quantities are at least [0] when no row's quantity
    reads as a negative integer. *)
Theorem create_stocks_quantities (R : list watch) (K : list string) :
  (forall stocks K',
      Seller.create_stocks R K = (Ok stocks, K') ->
      (forall s, In s stocks ->
         Seller.s_stock s = 100 \/ Seller.s_stock s = 0
         \/ exists w, In w R /\ ident w = Seller.s_offer_id s
                      /\ py_int (Kolichestvo w) = Ok (Seller.s_stock s))
      /\ ((forall w z, In w R -> py_int (Kolichestvo w) = Ok z -> 0 <= z) ->
          Forall (fun s => 0 <= Seller.s_stock s) stocks))
  /\ (forall warehouse_id date stocks K',
        Market.create_stocks R warehouse_id date K = (Ok stocks, K') ->
        (forall s, In s stocks ->
           Market.stock_count s = 100 \/ Market.stock_count s = 0
           \/ exists w, In w R /\ ident w = Market.sku s
                        /\ py_int (Kolichestvo w)
                           = Ok (Market.stock_count s))
        /\ ((forall w z, In w R -> py_int (Kolichestvo w) = Ok z ->
               0 <= z) ->
            Forall (fun s => 0 <= Market.stock_count s) stocks)).
Proof.
  split.
  - intros stocks K' H. split.
    + exact (create_stocks_with_quantity Seller.mk_stock Seller.s_offer_id
               Seller.s_stock (fun _ _ => eq_refl) (fun _ _ => eq_refl)
               R K K' stocks H).
    + intros Hpos.
      exact (create_stocks_with_nonneg Seller.mk_stock Seller.s_offer_id
               Seller.s_stock (fun _ _ => eq_refl) (fun _ _ => eq_refl)
               R K K' stocks Hpos H).
  - intros warehouse_id date stocks K' H. split.
    + exact (create_stocks_with_quantity (Market.mk_stock warehouse_id date)
               Market.sku Market.stock_count
               (fun _ _ => eq_refl) (fun _ _ => eq_refl) R K K' stocks H).
    + intros Hpos.
      exact (create_stocks_with_nonneg (Market.mk_stock warehouse_id date)
               Market.sku Market.stock_count
               (fun _ _ => eq_refl) (fun _ _ => eq_refl)
               R K K' stocks Hpos H).
Qed.

Lemma create_stocks_quantities_witness :
  Forall (fun s => 0 <= Seller.s_stock s)
    [Seller.mk_stock "A" 7; Seller.mk_stock "B" 0]
  /\ forall s,
       In s [Seller.mk_stock "A" 7; Seller.mk_stock "B" 0] ->
       Seller.s_stock s = 100 \/ Seller.s_stock s = 0
       \/ exists w, In w counted_rows /\ ident w = Seller.s_offer_id s
                    /\ py_int (Kolichestvo w) = Ok (Seller.s_stock s).
Proof.
  destruct (create_stocks_quantities counted_rows ["A"; "B"]) as [HS _].
  destruct (HS [Seller.mk_stock "A" 7; Seller.mk_stock "B" 0] ["B"]
              eq_refl) as [Hread Hsign].
  split; [|exact Hread].
  apply Hsign.
  intros w z [<- | []] H. vm_compute in H. injection H as <-. lia.
Defined.

(** C8, as it is worded: a matched row with the quantity ["-5"] yields a
    record with the quantity [-5]. *)
Lemma create_stocks_quantities_counterexample :
  Seller.create_stocks negative_rows ["A"]
  = (Ok [Seller.mk_stock "A" (-5)], [])
  /\ (forall warehouse_id date,
        Market.create_stocks negative_rows warehouse_id date ["A"]
        = (Ok [Market.mk_stock warehouse_id date "A" (-5)], []))
  /\ ~ Forall (fun s => 0 <= Seller.s_stock s) [Seller.mk_stock "A" (-5)].
Proof.
  split; [reflexivity|]. split; [intros; reflexivity|].
  intros H. inversion H as [|? ? Hneg _]. simpl in Hneg. lia.
Qed.

(** ** Prices *)

Lemma seller_mk_price_id (x : string) (v : pyval) (p : Seller.price_update) :
  Seller.mk_price x v = Ok p -> Seller.p_offer_id p = x.
Proof.
  unfold Seller.mk_price.
  destruct (price_conversion_val v); [|discriminate].
  intros H. injection H as <-. reflexivity.
Qed.

Lemma market_mk_price_id (x : string) (v : pyval) (p : Market.price_update) :
  Market.mk_price x v = Ok p -> Market.id p = x.
Proof.
  unfold Market.mk_price.
  destruct (price_conversion_val v) as [s|]; [|discriminate].
  destruct (py_int (PyStr s)); [|discriminate].
  intros H. injection H as <-. reflexivity.
Qed.

(** C10. [create_prices] leaves the identifier list as it found it,
    whether it returns or raises; a successful run answers one price record
    for every row whose identifier is in the list, in the order of the
    rows, so two rows with the same known identifier give two records,
    where [create_stocks] gives one and removes the identifier. *)
Theorem create_prices_frame (R : list watch) (K : list string) :
  snd (Seller.create_prices R K) = K
  /\ snd (Market.create_prices R K) = K
  /\ (forall prices K',
        Seller.create_prices R K = (Ok prices, K') ->
        map Seller.p_offer_id prices
        = filter (fun x => py_in x K) (map ident R))
  /\ (forall prices K',
        Market.create_prices R K = (Ok prices, K') ->
        map Market.id prices
        = filter (fun x => py_in x K) (map ident R))
  /\ (map Seller.p_offer_id
        match fst (Seller.create_prices repeated_rows ["A"]) with
        | Ok prices => prices
        | Err _ => []
        end = ["A"; "A"]
      /\ snd (Seller.create_prices repeated_rows ["A"]) = ["A"]
      /\ Seller.create_stocks repeated_rows ["A"]
         = (Ok [Seller.mk_stock "A" 5], [])).
Proof.
  split; [apply price_pass_frame|].
  split; [apply price_pass_frame|].
  split.
  { intros prices K' H.
    apply (price_pass_ids Seller.mk_price Seller.p_offer_id
             seller_mk_price_id R [] prices K K' H). }
  split.
  { intros prices K' H.
    apply (price_pass_ids Market.mk_price Market.id
             market_mk_price_id R [] prices K K' H). }
  repeat split.
Qed.

Lemma create_prices_frame_witness :
  map Market.id
    [ {| Market.id := "A";
         Market.price := {| Market.value := 100;
                            Market.currencyId := "RUR" |} |};
      {| Market.id := "A";
         Market.price := {| Market.value := 200;
                            Market.currencyId := "RUR" |} |} ]
  = filter (fun x => py_in x ["A"]) (map ident repeated_rows).
Proof.
  destruct (create_prices_frame repeated_rows ["A"])
    as (_ & _ & _ & HM & _).
  apply (HM _ ["A"]). reflexivity.
Defined.

(** * The catalog reader *)

(** ** Ozon: stop when the running count reaches the reported total *)

Lemma seller_log_items_cons (tok : string) (p : Seller.product_page)
  (log : list Seller.exchange) :
  Seller.log_items ((tok, Ok p) :: log)
  = Seller.items p ++ Seller.log_items log.
Proof. reflexivity. Qed.

Lemma seller_log_items_single (tok : string) (p : Seller.product_page) :
  Seller.log_items [(tok, Ok p)] = Seller.items p.
Proof. cbn. apply app_nil_r. Qed.

Lemma not_last_of_single {A : Type} (x y : A) (l1 l2 : list A) :
  [x] = l1 ++ y :: l2 -> l2 = [].
Proof.
  intros E. apply (f_equal (@List.length A)) in E.
  rewrite length_app in E. simpl in E.
  destruct l2; [reflexivity | simpl in E; lia].
Qed.

Lemma seller_stops_first_single (seen : list Seller.product)
  (tok : string) (p : Seller.product_page) :
  Seller.stops_first seen [(tok, Ok p)]
  <-> Seller.total p
      = Z.of_nat (List.length (seen ++ Seller.items p)).
Proof.
  unfold Seller.stops_first. rewrite seller_log_items_single. split.
  - intros ((init & tok' & p' & E & Htot) & _).
    apply (app_inj_tail []) in E as (_ & E). injection E as _ <-.
    exact Htot.
  - intros Htot. split.
    + exists [], tok, p. auto.
    + intros l1 tok' p' l2 E Hne.
      apply not_last_of_single in E. contradiction.
Qed.

Lemma seller_stops_first_cons (seen : list Seller.product)
  (tok : string) (p : Seller.product_page) (rest : list Seller.exchange) :
  rest <> [] ->
  Seller.stops_first seen ((tok, Ok p) :: rest)
  <-> Seller.total p <> Z.of_nat (List.length (seen ++ Seller.items p))
      /\ Seller.stops_first (seen ++ Seller.items p) rest.
Proof.
  intros Hrest. unfold Seller.stops_first. split.
  - intros ((init & tok' & p' & E & Htot) & Hno). split; [|split].
    + rewrite <- (seller_log_items_single tok p).
      apply (Hno [] tok p rest eq_refl Hrest).
    + destruct init as [|x init]; simpl in E.
      * pose proof (f_equal (@tl _) E) as Enil. contradiction.
      * pose proof (f_equal (@tl _) E) as Erest. simpl in Erest.
        exists init, tok', p'.
        split; [exact Erest|].
        rewrite <- app_assoc, <- (seller_log_items_cons tok p). exact Htot.
    + intros l1 tok1 p1 l2 E1 Hne.
      rewrite <- app_assoc, <- (seller_log_items_cons tok p).
      apply (Hno ((tok, Ok p) :: l1) tok1 p1 l2); [|exact Hne].
      simpl. rewrite E1. reflexivity.
  - intros (Hgo & (init & tok' & p' & E & Htot) & Hno). split.
    + exists ((tok, Ok p) :: init), tok', p'. split.
      * simpl. rewrite E. reflexivity.
      * rewrite seller_log_items_cons, app_assoc. exact Htot.
    + intros l1 tok1 p1 l2 E1 Hne.
      destruct l1 as [|x l1]; simpl in E1.
      * injection E1 as <- <- _. cbn [app].
        rewrite seller_log_items_single. exact Hgo.
      * injection E1 as <- Erest. cbn [app].
        rewrite seller_log_items_cons, app_assoc.
        apply (Hno l1 tok1 p1 l2 Erest Hne).
Qed.

Section SellerReader.

Variable World : Type.
Variable get_product_list :
  string -> World -> result Seller.product_page * World.

(** A finished loop has logged the remote side's answers up to the
    first that meets the stop test, and gathered their items. *)
Lemma seller_fetch_log (fuel : nat) :
  forall (last_id : string) (product_list : list Seller.product)
         (log : list Seller.exchange) (w : World)
         (out : list Seller.product) (log' : list Seller.exchange)
         (w' : World),
    Seller.fetch get_product_list fuel last_id product_list log w
    = Some (Ok out, log', w') ->
    exists new,
      log' = log ++ new
      /\ out = product_list ++ Seller.log_items new
      /\ Seller.answers get_product_list last_id w new w'
      /\ Seller.stops_first product_list new.
Proof.
  induction fuel as [|fuel IH];
    intros last_id product_list log w out log' w' H.
  - discriminate.
  - cbn [Seller.fetch] in H.
    destruct (get_product_list last_id w) as [[p|e] w1] eqn:Hget;
      [|discriminate].
    destruct (Z.eqb_spec (Seller.total p)
                (Z.of_nat (List.length (product_list ++ Seller.items p))))
      as [Hstop | Hgo].
    + injection H as <- <- <-.
      exists [(last_id, Ok p)].
      split; [reflexivity|].
      split; [rewrite seller_log_items_single; reflexivity|].
      split; [|apply seller_stops_first_single, Hstop].
      simpl. split; [reflexivity|]. exists w1. auto.
    + apply IH in H as (new & -> & -> & Hans & Hfirst).
      exists ((last_id, Ok p) :: new).
      split; [rewrite <- app_assoc; reflexivity|].
      split; [rewrite seller_log_items_cons, app_assoc; reflexivity|].
      split.
      * simpl. split; [reflexivity|]. exists w1. auto.
      * apply seller_stops_first_cons; [|auto].
        destruct Hfirst as ((init & tok & q & -> & _) & _).
        destruct init; discriminate.
Qed.

(** Conversely, when the remote side's answers reach the stop test, the
    loop returns them as soon as the fuel covers the requests. *)
Lemma seller_fetch_complete (new : list Seller.exchange) :
  forall (last_id : string) (product_list : list Seller.product)
         (log : list Seller.exchange) (w w' : World) (fuel : nat),
    Seller.answers get_product_list last_id w new w' ->
    Seller.stops_first product_list new ->
    (List.length new <= fuel)%nat ->
    Seller.fetch get_product_list fuel last_id product_list log w
    = Some (Ok (product_list ++ Seller.log_items new), log ++ new, w').
Proof.
  induction new as [|[tok r] rest IH];
    intros last_id product_list log w w' fuel Hans Hfirst Hfuel.
  - destruct Hfirst as ((init & tok & p & E & _) & _).
    destruct init; discriminate.
  - simpl in Hans. destruct Hans as (-> & w1 & Hget & Hrest).
    destruct r as [p|e]; [|contradiction].
    destruct fuel as [|fuel]; [simpl in Hfuel; lia|].
    cbn [Seller.fetch]. rewrite Hget.
    destruct rest as [|x rest].
    + apply seller_stops_first_single in Hfirst.
      rewrite (proj2 (Z.eqb_eq _ _) Hfirst).
      simpl in Hrest. subst w1.
      rewrite seller_log_items_single. reflexivity.
    + apply seller_stops_first_cons in Hfirst as (Hgo & Hfirst);
        [|discriminate].
      rewrite (proj2 (Z.eqb_neq _ _) Hgo).
      rewrite (IH _ _ _ _ _ _ Hrest Hfirst) by (simpl in *; lia).
      rewrite seller_log_items_cons, <- !app_assoc. reflexivity.
Qed.

Lemma seller_get_offer_ids_Ok (fuel : nat) (w w' : World)
  (ids : list string) (log : list Seller.exchange) :
  Seller.get_offer_ids get_product_list fuel w = Some (Ok ids, log, w') ->
  exists product_list,
    Seller.fetch get_product_list fuel "" [] [] w
    = Some (Ok product_list, log, w')
    /\ ids = map Seller.offer_id product_list.
Proof.
  unfold Seller.get_offer_ids.
  destruct (Seller.fetch get_product_list fuel "" [] [] w)
    as [[[[pl|e] l] w1]|]; try discriminate.
  intros H. injection H as <- <- <-. exists pl. auto.
Qed.

Lemma seller_get_offer_ids_log (fuel : nat) (w w' : World)
  (ids : list string) (log : list Seller.exchange) :
  Seller.get_offer_ids get_product_list fuel w = Some (Ok ids, log, w') ->
  ids = map Seller.offer_id (Seller.log_items log)
  /\ Seller.answers get_product_list "" w log w'
  /\ Seller.stops_first [] log.
Proof.
  intros H. apply seller_get_offer_ids_Ok in H as (pl & H & ->).
  apply seller_fetch_log in H as (new & E & -> & Hans & Hfirst).
  simpl in E. subst new. auto.
Qed.

Lemma seller_get_offer_ids_complete (fuel : nat) (w w' : World)
  (log : list Seller.exchange) :
  Seller.answers get_product_list "" w log w' ->
  Seller.stops_first [] log ->
  (List.length log <= fuel)%nat ->
  Seller.get_offer_ids get_product_list fuel w
  = Some (Ok (map Seller.offer_id (Seller.log_items log)), log, w').
Proof.
  intros Hans Hfirst Hfuel. unfold Seller.get_offer_ids.
  rewrite (seller_fetch_complete log "" [] [] w w' fuel Hans Hfirst Hfuel).
  reflexivity.
Qed.

End SellerReader.

(** ** Yandex Market: stop when the page carries no continuation token *)

Lemma market_log_items_cons (tok : string) (p : Market.product_page)
  (log : list Market.exchange) :
  Market.log_items ((tok, Ok p) :: log)
  = Market.offerMappingEntries p ++ Market.log_items log.
Proof. reflexivity. Qed.

Lemma market_log_items_single (tok : string) (p : Market.product_page) :
  Market.log_items [(tok, Ok p)] = Market.offerMappingEntries p.
Proof. cbn. apply app_nil_r. Qed.

Lemma market_stops_first_single (tok : string) (p : Market.product_page) :
  Market.stops_first [(tok, Ok p)]
  <-> Market.falsy (Market.nextPageToken p) = true.
Proof.
  unfold Market.stops_first. split.
  - intros ((init & tok' & p' & E & Hstop) & _).
    apply (app_inj_tail []) in E as (_ & E). injection E as _ <-.
    exact Hstop.
  - intros Hstop. split.
    + exists [], tok, p. auto.
    + intros l1 tok' p' l2 E Hne.
      apply not_last_of_single in E. contradiction.
Qed.

Lemma market_stops_first_cons (tok : string) (p : Market.product_page)
  (rest : list Market.exchange) :
  rest <> [] ->
  Market.stops_first ((tok, Ok p) :: rest)
  <-> Market.falsy (Market.nextPageToken p) = false
      /\ Market.stops_first rest.
Proof.
  intros Hrest. unfold Market.stops_first. split.
  - intros ((init & tok' & p' & E & Hstop) & Hno). split; [|split].
    + apply (Hno [] tok p rest eq_refl Hrest).
    + destruct init as [|x init]; simpl in E.
      * pose proof (f_equal (@tl _) E) as Enil. contradiction.
      * pose proof (f_equal (@tl _) E) as Erest. simpl in Erest.
        exists init, tok', p'. auto.
    + intros l1 tok1 p1 l2 E1 Hne.
      apply (Hno ((tok, Ok p) :: l1) tok1 p1 l2); [|exact Hne].
      simpl. rewrite E1. reflexivity.
  - intros (Hgo & (init & tok' & p' & E & Hstop) & Hno). split.
    + exists ((tok, Ok p) :: init), tok', p'. split; [|exact Hstop].
      simpl. rewrite E. reflexivity.
    + intros l1 tok1 p1 l2 E1 Hne.
      destruct l1 as [|x l1]; simpl in E1.
      * injection E1 as <- <- _. exact Hgo.
      * injection E1 as <- Erest. apply (Hno l1 tok1 p1 l2 Erest Hne).
Qed.

Section MarketReader.

Variable World : Type.
Variable get_product_list :
  string -> World -> result Market.product_page * World.

Lemma market_fetch_log (fuel : nat) :
  forall (page : string) (product_list : list Market.product)
         (log : list Market.exchange) (w : World)
         (out : list Market.product) (log' : list Market.exchange)
         (w' : World),
    Market.fetch get_product_list fuel page product_list log w
    = Some (Ok out, log', w') ->
    exists new,
      log' = log ++ new
      /\ out = product_list ++ Market.log_items new
      /\ Market.answers get_product_list page w new w'
      /\ Market.stops_first new.
Proof.
  induction fuel as [|fuel IH];
    intros page product_list log w out log' w' H.
  - discriminate.
  - cbn [Market.fetch] in H.
    destruct (get_product_list page w) as [[p|e] w1] eqn:Hget;
      [|discriminate].
    destruct (Market.falsy (Market.nextPageToken p)) eqn:Hstop.
    + injection H as <- <- <-.
      exists [(page, Ok p)].
      split; [reflexivity|].
      split; [rewrite market_log_items_single; reflexivity|].
      split; [|apply market_stops_first_single, Hstop].
      simpl. split; [reflexivity|]. exists w1. auto.
    + apply IH in H as (new & -> & -> & Hans & Hfirst).
      exists ((page, Ok p) :: new).
      split; [rewrite <- app_assoc; reflexivity|].
      split; [rewrite market_log_items_cons, app_assoc; reflexivity|].
      split.
      * simpl. split; [reflexivity|]. exists w1. auto.
      * apply market_stops_first_cons; [|auto].
        destruct Hfirst as ((init & tok & q & -> & _) & _).
        destruct init; discriminate.
Qed.

Lemma market_fetch_complete (new : list Market.exchange) :
  forall (page : string) (product_list : list Market.product)
         (log : list Market.exchange) (w w' : World) (fuel : nat),
    Market.answers get_product_list page w new w' ->
    Market.stops_first new ->
    (List.length new <= fuel)%nat ->
    Market.fetch get_product_list fuel page product_list log w
    = Some (Ok (product_list ++ Market.log_items new), log ++ new, w').
Proof.
  induction new as [|[tok r] rest IH];
    intros page product_list log w w' fuel Hans Hfirst Hfuel.
  - destruct Hfirst as ((init & tok & p & E & _) & _).
    destruct init; discriminate.
  - simpl in Hans. destruct Hans as (-> & w1 & Hget & Hrest).
    destruct r as [p|e]; [|contradiction].
    destruct fuel as [|fuel]; [simpl in Hfuel; lia|].
    cbn [Market.fetch]. rewrite Hget.
    destruct rest as [|x rest].
    + apply market_stops_first_single in Hfirst. rewrite Hfirst.
      simpl in Hrest. subst w1.
      rewrite market_log_items_single. reflexivity.
    + apply market_stops_first_cons in Hfirst as (Hgo & Hfirst);
        [|discriminate].
      rewrite Hgo.
      rewrite (IH _ _ _ _ _ _ Hrest Hfirst) by (simpl in *; lia).
      rewrite market_log_items_cons, <- !app_assoc. reflexivity.
Qed.

Lemma market_get_offer_ids_Ok (fuel : nat) (w w' : World)
  (ids : list string) (log : list Market.exchange) :
  Market.get_offer_ids get_product_list fuel w = Some (Ok ids, log, w') ->
  exists product_list,
    Market.fetch get_product_list fuel "" [] [] w
    = Some (Ok product_list, log, w')
    /\ ids = map Market.shopSku product_list.
Proof.
  unfold Market.get_offer_ids.
  destruct (Market.fetch get_product_list fuel "" [] [] w)
    as [[[[pl|e] l] w1]|]; try discriminate.
  intros H. injection H as <- <- <-. exists pl. auto.
Qed.

Lemma market_get_offer_ids_log (fuel : nat) (w w' : World)
  (ids : list string) (log : list Market.exchange) :
  Market.get_offer_ids get_product_list fuel w = Some (Ok ids, log, w') ->
  ids = map Market.shopSku (Market.log_items log)
  /\ Market.answers get_product_list "" w log w'
  /\ Market.stops_first log.
Proof.
  intros H. apply market_get_offer_ids_Ok in H as (pl & H & ->).
  apply market_fetch_log in H as (new & E & -> & Hans & Hfirst).
  simpl in E. subst new. auto.
Qed.

Lemma market_get_offer_ids_complete (fuel : nat) (w w' : World)
  (log : list Market.exchange) :
  Market.answers get_product_list "" w log w' ->
  Market.stops_first log ->
  (List.length log <= fuel)%nat ->
  Market.get_offer_ids get_product_list fuel w
  = Some (Ok (map Market.shopSku (Market.log_items log)), log, w').
Proof.
  intros Hans Hfirst Hfuel. unfold Market.get_offer_ids.
  rewrite (market_fetch_complete log "" [] [] w w' fuel Hans Hfirst Hfuel).
  reflexivity.
Qed.

End MarketReader.

(** ** Both readers *)

Lemma ozon_two_pages_log :
  Seller.answers ozon_two_pages "" tt
    [("", Ok (ozon_page ["A"] 2 "p1")); ("p1", Ok (ozon_page ["B"] 2 "p2"))]
    tt
  /\ Seller.stops_first []
       [("", Ok (ozon_page ["A"] 2 "p1"));
        ("p1", Ok (ozon_page ["B"] 2 "p2"))].
Proof.
  split.
  - simpl. split; [reflexivity|]. exists tt. split; [reflexivity|].
    split; [reflexivity|]. exists tt. split; reflexivity.
  - apply seller_stops_first_cons; [discriminate|]. split.
    + simpl. lia.
    + apply seller_stops_first_single. reflexivity.
Qed.

Lemma yandex_two_pages_log :
  Market.answers yandex_two_pages "" tt
    [("", Ok (yandex_page ["A"] (Some "p1")));
     ("p1", Ok (yandex_page ["B"] None))]
    tt
  /\ Market.stops_first
       [("", Ok (yandex_page ["A"] (Some "p1")));
        ("p1", Ok (yandex_page ["B"] None))].
Proof.
  split.
  - simpl. split; [reflexivity|]. exists tt. split; [reflexivity|].
    split; [reflexivity|]. exists tt. split; reflexivity.
  - apply market_stops_first_cons; [discriminate|]. split.
    + reflexivity.
    + apply market_stops_first_single. reflexivity.
Qed.

(** C6. The reader stops at the first answer that meets the stop test:
    the running count equals the reported total (Ozon), no continuation
    token came back (Yandex Market).  When the remote side's answers
    reach such an answer, the run, given fuel for that many requests,
    finishes having sent exactly the requests up to it; a finished run
    has sent exactly those; and when the first answer already meets the
    test (a one-page catalog, an empty one included) the only request is
    the one for the page [""]. *)
Theorem get_offer_ids_stops :
  (forall (World : Type) get_product_list fuel (w w' : World) log,
      Seller.answers get_product_list "" w log w' ->
      Seller.stops_first [] log ->
      (List.length log <= fuel)%nat ->
      exists ids,
        Seller.get_offer_ids get_product_list fuel w
        = Some (Ok ids, log, w'))
  /\ (forall (World : Type) get_product_list fuel (w w' : World) ids log,
        Seller.get_offer_ids get_product_list fuel w
        = Some (Ok ids, log, w') ->
        Seller.answers get_product_list "" w log w'
        /\ Seller.stops_first [] log)
  /\ (forall (World : Type) get_product_list fuel (w w' : World) p,
        get_product_list "" w = (Ok p, w') ->
        Seller.total p = Z.of_nat (List.length (Seller.items p)) ->
        Seller.get_offer_ids get_product_list (S fuel) w
        = Some (Ok (map Seller.offer_id (Seller.items p)),
                [("", Ok p)], w'))
  /\ (forall (World : Type) get_product_list fuel (w w' : World) p,
        get_product_list "" w = (Ok p, w') ->
        Seller.items p = [] -> Seller.total p = 0 ->
        Seller.get_offer_ids get_product_list (S fuel) w
        = Some (Ok [], [("", Ok p)], w'))
  /\ (forall (World : Type) get_product_list fuel (w w' : World) log,
        Market.answers get_product_list "" w log w' ->
        Market.stops_first log ->
        (List.length log <= fuel)%nat ->
        exists ids,
          Market.get_offer_ids get_product_list fuel w
          = Some (Ok ids, log, w'))
  /\ (forall (World : Type) get_product_list fuel (w w' : World) ids log,
        Market.get_offer_ids get_product_list fuel w
        = Some (Ok ids, log, w') ->
        Market.answers get_product_list "" w log w'
        /\ Market.stops_first log)
  /\ (forall (World : Type) get_product_list fuel (w w' : World) p,
        get_product_list "" w = (Ok p, w') ->
        Market.falsy (Market.nextPageToken p) = true ->
        Market.get_offer_ids get_product_list (S fuel) w
        = Some (Ok (map Market.shopSku (Market.offerMappingEntries p)),
                [("", Ok p)], w'))
  /\ (forall (World : Type) get_product_list fuel (w w' : World) p,
        get_product_list "" w = (Ok p, w') ->
        Market.offerMappingEntries p = [] ->
        Market.falsy (Market.nextPageToken p) = true ->
        Market.get_offer_ids get_product_list (S fuel) w
        = Some (Ok [], [("", Ok p)], w')).
Proof.
  assert (HS : forall (World : Type) gpl fuel (w w' : World) p,
             gpl "" w = (Ok p, w') ->
             Seller.total p = Z.of_nat (List.length (Seller.items p)) ->
             Seller.get_offer_ids gpl (S fuel) w
             = Some (Ok (map Seller.offer_id (Seller.items p)),
                     [("", Ok p)], w')).
  { intros World gpl fuel w w' p Hget Hstop.
    rewrite (seller_get_offer_ids_complete World gpl (S fuel) w w'
               [("", Ok p)]).
    - rewrite seller_log_items_single. reflexivity.
    - simpl. split; [reflexivity|]. exists w'. auto.
    - apply seller_stops_first_single. exact Hstop.
    - simpl. lia. }
  assert (HM : forall (World : Type) gpl fuel (w w' : World) p,
             gpl "" w = (Ok p, w') ->
             Market.falsy (Market.nextPageToken p) = true ->
             Market.get_offer_ids gpl (S fuel) w
             = Some (Ok (map Market.shopSku (Market.offerMappingEntries p)),
                     [("", Ok p)], w')).
  { intros World gpl fuel w w' p Hget Hstop.
    rewrite (market_get_offer_ids_complete World gpl (S fuel) w w'
               [("", Ok p)]).
    - rewrite market_log_items_single. reflexivity.
    - simpl. split; [reflexivity|]. exists w'. auto.
    - apply market_stops_first_single. exact Hstop.
    - simpl. lia. }
  split.
  { intros World gpl fuel w w' log Hans Hfirst Hfuel. eexists.
    apply seller_get_offer_ids_complete; assumption. }
  split.
  { intros World gpl fuel w w' ids log H.
    apply seller_get_offer_ids_log in H as (_ & Hans & Hfirst). auto. }
  split; [exact HS|].
  split.
  { intros World gpl fuel w w' p Hget Hitems Htotal.
    rewrite (HS World gpl fuel w w' p Hget)
      by (rewrite Hitems, Htotal; reflexivity).
    rewrite Hitems. reflexivity. }
  split.
  { intros World gpl fuel w w' log Hans Hfirst Hfuel. eexists.
    apply market_get_offer_ids_complete; assumption. }
  split.
  { intros World gpl fuel w w' ids log H.
    apply market_get_offer_ids_log in H as (_ & Hans & Hfirst). auto. }
  split; [exact HM|].
  intros World gpl fuel w w' p Hget Hitems Hstop.
  rewrite (HM World gpl fuel w w' p Hget Hstop).
  rewrite Hitems. reflexivity.
Qed.

Lemma get_offer_ids_stops_witness :
  Seller.get_offer_ids (ozon_single (ozon_page ["A"; "B"] 2 "p1")) 1 tt
  = Some (Ok ["A"; "B"], [("", Ok (ozon_page ["A"; "B"] 2 "p1"))], tt)
  /\ Seller.get_offer_ids (ozon_single (ozon_page [] 0 "")) 1 tt
     = Some (Ok [], [("", Ok (ozon_page [] 0 ""))], tt)
  /\ Market.get_offer_ids (yandex_single (yandex_page ["A"] None)) 1 tt
     = Some (Ok ["A"], [("", Ok (yandex_page ["A"] None))], tt)
  /\ Market.get_offer_ids (yandex_single (yandex_page [] (Some ""))) 1 tt
     = Some (Ok [], [("", Ok (yandex_page [] (Some "")))], tt)
  /\ (exists ids,
         Seller.get_offer_ids ozon_two_pages 2 tt
         = Some (Ok ids,
                 [("", Ok (ozon_page ["A"] 2 "p1"));
                  ("p1", Ok (ozon_page ["B"] 2 "p2"))], tt))
  /\ (exists ids,
         Market.get_offer_ids yandex_two_pages 2 tt
         = Some (Ok ids,
                 [("", Ok (yandex_page ["A"] (Some "p1")));
                  ("p1", Ok (yandex_page ["B"] None))], tt))
  /\ Seller.stops_first []
       [("", Ok (ozon_page ["A"] 2 "p1"));
        ("p1", Ok (ozon_page ["B"] 2 "p2"))]
  /\ Market.stops_first
       [("", Ok (yandex_page ["A"] (Some "p1")));
        ("p1", Ok (yandex_page ["B"] None))].
Proof.
  destruct get_offer_ids_stops
    as (HSrun & HSlog & HSone & HSempty & HMrun & HMlog & HMone & HMempty).
  split.
  { exact (HSone unit (ozon_single (ozon_page ["A"; "B"] 2 "p1"))
             0%nat tt tt _ eq_refl eq_refl). }
  split.
  { exact (HSempty unit (ozon_single (ozon_page [] 0 ""))
             0%nat tt tt _ eq_refl eq_refl eq_refl). }
  split.
  { exact (HMone unit (yandex_single (yandex_page ["A"] None))
             0%nat tt tt _ eq_refl eq_refl). }
  split.
  { exact (HMempty unit (yandex_single (yandex_page [] (Some "")))
             0%nat tt tt _ eq_refl eq_refl eq_refl). }
  split.
  { apply (HSrun unit ozon_two_pages 2%nat tt tt);
      [apply ozon_two_pages_log | apply ozon_two_pages_log | simpl; lia]. }
  split.
  { apply (HMrun unit yandex_two_pages 2%nat tt tt);
      [apply yandex_two_pages_log | apply yandex_two_pages_log
      | simpl; lia]. }
  split.
  { apply (HSlog unit ozon_two_pages 5%nat tt tt ["A"; "B"]). reflexivity. }
  apply (HMlog unit yandex_two_pages 5%nat tt tt ["A"; "B"]). reflexivity.
Defined.

(** C9, as the code has it.  The reader returns the identifiers of the
    items of all the pages it fetched, in page order and with the
    repetitions the pages have: this is the result of every finished run,
    and the run finishes with it whenever the remote side's answers reach
    the stop test and the fuel covers the requests. *)
Theorem get_offer_ids_all_items :
  (forall (World : Type) get_product_list fuel (w w' : World) ids log,
      Seller.get_offer_ids get_product_list fuel w
      = Some (Ok ids, log, w') ->
      ids = map Seller.offer_id (Seller.log_items log))
  /\ (forall (World : Type) get_product_list fuel (w w' : World) log,
        Seller.answers get_product_list "" w log w' ->
        Seller.stops_first [] log ->
        (List.length log <= fuel)%nat ->
        Seller.get_offer_ids get_product_list fuel w
        = Some (Ok (map Seller.offer_id (Seller.log_items log)), log, w'))
  /\ (forall (World : Type) get_product_list fuel (w w' : World) ids log,
        Market.get_offer_ids get_product_list fuel w
        = Some (Ok ids, log, w') ->
        ids = map Market.shopSku (Market.log_items log))
  /\ (forall (World : Type) get_product_list fuel (w w' : World) log,
        Market.answers get_product_list "" w log w' ->
        Market.stops_first log ->
        (List.length log <= fuel)%nat ->
        Market.get_offer_ids get_product_list fuel w
        = Some (Ok (map Market.shopSku (Market.log_items log)), log, w')).
Proof.
  split.
  { intros World gpl fuel w w' ids log H.
    apply seller_get_offer_ids_log in H as (E & _). exact E. }
  split; [intros; apply seller_get_offer_ids_complete; assumption|].
  split.
  { intros World gpl fuel w w' ids log H.
    apply market_get_offer_ids_log in H as (E & _). exact E. }
  intros; apply market_get_offer_ids_complete; assumption.
Qed.

Lemma get_offer_ids_all_items_witness :
  ["A"; "B"]
  = map Seller.offer_id
      (Seller.log_items
         [("", Ok (ozon_page ["A"] 2 "p1"));
          ("p1", Ok (ozon_page ["B"] 2 "p2"))])
  /\ Seller.get_offer_ids ozon_two_pages 2 tt
     = Some (Ok ["A"; "B"],
             [("", Ok (ozon_page ["A"] 2 "p1"));
              ("p1", Ok (ozon_page ["B"] 2 "p2"))], tt)
  /\ ["A"; "B"]
     = map Market.shopSku
         (Market.log_items
            [("", Ok (yandex_page ["A"] (Some "p1")));
             ("p1", Ok (yandex_page ["B"] None))])
  /\ Market.get_offer_ids yandex_two_pages 2 tt
     = Some (Ok ["A"; "B"],
             [("", Ok (yandex_page ["A"] (Some "p1")));
              ("p1", Ok (yandex_page ["B"] None))], tt).
Proof.
  destruct get_offer_ids_all_items as (HS & HSrun & HM & HMrun).
  split; [apply (HS unit ozon_two_pages 2%nat tt tt); reflexivity|].
  split.
  { exact (HSrun unit ozon_two_pages 2%nat tt tt _
             (proj1 ozon_two_pages_log) (proj2 ozon_two_pages_log)
             (le_n 2)). }
  split; [apply (HM unit yandex_two_pages 2%nat tt tt); reflexivity|].
  exact (HMrun unit yandex_two_pages 2%nat tt tt _
           (proj1 yandex_two_pages_log) (proj2 yandex_two_pages_log)
           (le_n 2)).
Defined.

(** C9, as it is worded: a page that lists an identifier twice gives a
    result that holds it twice. *)
Lemma get_offer_ids_all_items_counterexample :
  Seller.get_offer_ids (ozon_single (ozon_page ["A"; "A"] 2 "p1")) 1 tt
  = Some (Ok ["A"; "A"], [("", Ok (ozon_page ["A"; "A"] 2 "p1"))], tt)
  /\ Market.get_offer_ids (yandex_single (yandex_page ["A"; "A"] None)) 1 tt
     = Some (Ok ["A"; "A"], [("", Ok (yandex_page ["A"; "A"] None))], tt)
  /\ ~ NoDup ["A"; "A"].
Proof.
  split; [reflexivity|]. split; [reflexivity|].
  intros H. inversion H as [|? ? Hin _]. apply Hin. left. reflexivity.
Qed.

(** * Further properties of the partitioner *)

(** X1. A chunk size of zero makes [divide] raise [ValueError] (the
    [range] step), and a negative one makes it yield no chunk at all,
    whatever the list holds. *)
Theorem divide_bad_step {A : Type} (lst : list A) :
  divide lst 0 = Err ValueError
  /\ (forall n : Z, n < 0 -> divide lst n = Ok []).
Proof.
  split; [reflexivity|].
  intros n Hn. unfold divide, py_range.
  destruct (Z.eqb_spec n 0) as [?|_]; [lia|].
  destruct (Z.ltb_spec 0 n) as [?|_]; [lia|].
  destruct (Z.ltb_spec (Z.of_nat (List.length lst)) 0) as [?|_]; [lia|].
  reflexivity.
Qed.

Lemma divide_bad_step_witness :
  divide [1; 2; 3] (-2) = Ok [].
Proof.
  destruct (divide_bad_step [1; 2; 3]) as [_ H]. apply H. lia.
Defined.

Lemma chunk_count_bounds (len n : Z) :
  0 <= len -> 0 < n ->
  0 <= (len + n - 1) / n
  /\ len <= ((len + n - 1) / n) * n < len + n.
Proof.
  intros Hlen Hn.
  pose proof (Z.mod_pos_bound (len + n - 1) n Hn) as Hm.
  pose proof (Z.div_mod (len + n - 1) n ltac:(lia)) as Hd.
  split; [apply Z.div_pos; lia | lia].
Qed.

Lemma divide_concat {A : Type} (lst : list A) (n : Z)
  (chunks : list (list A)) :
  0 < n -> divide lst n = Ok chunks -> List.concat chunks = lst.
Proof.
  intros Hn H. rewrite divide_windows in H by exact Hn.
  injection H as <-.
  apply concat_windows.
  pose proof (chunk_count_bounds (Z.of_nat (List.length lst)) n
                ltac:(lia) Hn) as (Hq & Hup & _).
  nia.
Qed.

Lemma divide_chunk_sizes {A : Type} (lst : list A) (n : Z)
  (chunks : list (list A)) :
  0 < n -> divide lst n = Ok chunks ->
  Forall (fun c => 0 < Z.of_nat (List.length c) <= n) chunks.
Proof.
  intros Hn H. rewrite divide_windows in H by exact Hn.
  injection H as <-.
  pose proof (chunk_count_bounds (Z.of_nat (List.length lst)) n
                ltac:(lia) Hn) as (Hq & _ & Hlo).
  apply Forall_forall. intros c Hc.
  apply in_map_iff in Hc as (k & <- & Hk).
  apply in_seq in Hk. unfold window.
  rewrite length_firstn, length_skipn. nia.
Qed.

(** X2. For a chunk size [n > 0] no chunk of [divide] is empty, each has
    at most [n] elements, and a non-empty list of at most [n] elements
    comes back as one chunk, the list itself. *)
Theorem divide_chunks_nonempty {A : Type} (lst : list A) (n : Z)
  (chunks : list (list A)) :
  0 < n ->
  divide lst n = Ok chunks ->
  Forall (fun c => 0 < Z.of_nat (List.length c) <= n) chunks
  /\ (lst <> [] -> Z.of_nat (List.length lst) <= n -> chunks = [lst]).
Proof.
  intros Hn H. split; [apply (divide_chunk_sizes lst n chunks Hn H)|].
  intros Hne Hsmall.
  rewrite divide_windows in H by exact Hn. injection H as <-.
  assert (Hlen : 0 < Z.of_nat (List.length lst))
    by (destruct lst; [contradiction | simpl; lia]).
  replace ((Z.of_nat (List.length lst) + n - 1) / n) with 1.
  - simpl. unfold window. simpl.
    rewrite firstn_all2 by lia. reflexivity.
  - apply Z.div_unique with (r := Z.of_nat (List.length lst) - 1); lia.
Qed.

Lemma divide_chunks_nonempty_witness :
  Forall (fun c => 0 < Z.of_nat (List.length c) <= 5) [[1; 2; 3]]
  /\ [[1; 2; 3]] = [[1; 2; 3]].
Proof.
  destruct (divide_chunks_nonempty [1; 2; 3] 5 [[1; 2; 3]])
    as [Hsize Hone]; [lia | reflexivity |].
  split; [exact Hsize|].
  apply Hone; [discriminate | simpl; lia].
Defined.

(** * Further properties of price normalisation *)

Lemma digits_of_digits (s : string) :
  Forall (fun c => is_digit c = true) (digits_of s).
Proof.
  unfold digits_of. apply Forall_forall. intros c Hc.
  apply filter_In in Hc as [_ Hc]. exact Hc.
Qed.

Lemma re_sub_non_digits_fixed (s : string) :
  Forall (fun c => is_digit c = true) (list_ascii_of_string s) ->
  re_sub_non_digits s = s.
Proof.
  induction s as [|c s IH]; simpl; intros H; [reflexivity|].
  inversion H as [|? ? Hc Hs]; subst.
  rewrite Hc, (IH Hs). reflexivity.
Qed.

Lemma digit_not_dot (c : ascii) :
  is_digit c = true -> Ascii.eqb c "." = false.
Proof.
  intros H. destruct (Ascii.eqb_spec c "."%char) as [->|_];
    [discriminate H | reflexivity].
Qed.

Lemma digits_no_dot (s : string) :
  Forall (fun c => is_digit c = true) (list_ascii_of_string s) ->
  contains_char "." s = false.
Proof.
  induction s as [|c s IH]; simpl; intros H; [reflexivity|].
  inversion H as [|? ? Hc Hs]; subst.
  rewrite (digit_not_dot _ Hc), (IH Hs). reflexivity.
Qed.

Lemma re_sub_non_digits_length (s : string) :
  (String.length (re_sub_non_digits s) <= String.length s)%nat.
Proof.
  induction s as [|c s IH]; simpl; [lia|].
  destruct (is_digit c); simpl; lia.
Qed.

Lemma split_first_length (sep : ascii) (s : string) :
  (String.length (nth 0 (split sep s) EmptyString) <= String.length s)%nat.
Proof.
  induction s as [|c s IH]; simpl; [lia|].
  destruct (Ascii.eqb c sep); simpl; [lia|].
  destruct (split sep s) as [|p ps]; simpl in *; lia.
Qed.

Lemma price_conversion_all_digits (price : string) :
  Forall (fun c => is_digit c = true)
    (list_ascii_of_string (price_conversion price)).
Proof.
  unfold price_conversion. rewrite re_sub_non_digits_filter.
  apply digits_of_digits.
Qed.

(** X3. [price_conversion] answers a text of decimal digits only, no
    longer than its argument, and applying it to its own answer changes
    nothing. *)
Theorem price_conversion_digits (price : string) :
  Forall (fun c => is_digit c = true)
    (list_ascii_of_string (price_conversion price))
  /\ (String.length (price_conversion price) <= String.length price)%nat
  /\ price_conversion (price_conversion price) = price_conversion price.
Proof.
  pose proof (price_conversion_all_digits price) as Hd.
  split; [exact Hd|]. split.
  - unfold price_conversion.
    pose proof (re_sub_non_digits_length
                  (nth 0 (split "." price) EmptyString)).
    pose proof (split_first_length "." price). lia.
  - unfold price_conversion at 1.
    rewrite (split_no_sep _ _ (digits_no_dot _ Hd)). simpl.
    apply re_sub_non_digits_fixed, Hd.
Qed.

(** ** [int] of a text of digits *)

Lemma is_digit_ascii_digit (c : ascii) :
  is_digit c = true -> ascii_digit (N_of_ascii c) = true.
Proof.
  unfold is_digit, ascii_digit, nat_of_ascii. intros H.
  apply andb_true_iff in H as [H1 H2].
  apply Nat.leb_le in H1. apply Nat.leb_le in H2.
  apply andb_true_iff. split; apply N.leb_le; lia.
Qed.

Lemma ascii_digit_bounds (c : N) :
  ascii_digit c = true -> (48 <= c <= 57)%N.
Proof.
  unfold ascii_digit. intros H. apply andb_true_iff in H as [H1 H2].
  apply N.leb_le in H1. apply N.leb_le in H2. lia.
Qed.

Lemma digit_bytes (s : string) :
  Forall (fun c => is_digit c = true) (list_ascii_of_string s) ->
  Forall (fun c => ascii_digit c = true)
    (map N_of_ascii (list_ascii_of_string s)).
Proof.
  intros H. apply Forall_map.
  eapply Forall_impl; [|exact H].
  intros c Hc. apply is_digit_ascii_digit, Hc.
Qed.

Lemma utf8_decode_digits (l : list N) :
  Forall (fun c => ascii_digit c = true) l -> utf8_decode l = l.
Proof.
  induction 1 as [|c l Hc _ IH]; [reflexivity|].
  apply ascii_digit_bounds in Hc. cbn [utf8_decode].
  destruct (N.ltb_spec c 128) as [_|?]; [|lia].
  rewrite IH. reflexivity.
Qed.

Lemma transform_digits (l : list N) :
  Forall (fun c => ascii_digit c = true) l -> transform l = Some l.
Proof.
  induction 1 as [|c l Hc _ IH]; [reflexivity|].
  apply ascii_digit_bounds in Hc. cbn [transform]. unfold to_ascii.
  destruct (N.ltb_spec c 127) as [_|?]; [|lia].
  rewrite IH. reflexivity.
Qed.

Lemma digit_not_space (c : N) :
  ascii_digit c = true -> is_space c = false.
Proof.
  intros H. apply ascii_digit_bounds in H. unfold is_space.
  apply orb_false_iff. split.
  - apply andb_false_iff. right. apply N.leb_gt. lia.
  - apply N.eqb_neq. lia.
Qed.

Lemma lstrip_digits (l : list N) :
  Forall (fun c => ascii_digit c = true) l -> lstrip l = l.
Proof.
  intros H. destruct H as [|c l Hc _]; [reflexivity|].
  simpl. rewrite (digit_not_space _ Hc). reflexivity.
Qed.

Lemma strip_digits (l : list N) :
  Forall (fun c => ascii_digit c = true) l -> strip l = l.
Proof.
  intros H. unfold strip. rewrite (lstrip_digits l H).
  rewrite lstrip_digits by (apply Forall_rev, H).
  apply rev_involutive.
Qed.

Lemma filter_digits (l : list N) :
  Forall (fun c => ascii_digit c = true) l -> filter ascii_digit l = l.
Proof.
  induction 1 as [|c l Hc _ IH]; [reflexivity|].
  cbn [filter]. rewrite Hc, IH. reflexivity.
Qed.

Lemma parse_digits_digits (l : list N) :
  Forall (fun c => ascii_digit c = true) l ->
  forall (acc : Z) (prev : bool),
    0 <= acc -> l <> [] \/ prev = true ->
    exists v, parse_digits acc prev l = Some v /\ 0 <= v.
Proof.
  induction 1 as [|c l Hc Hl IH]; intros acc prev Hacc Hne.
  - destruct Hne as [Hne | ->]; [contradiction|].
    exists acc. auto.
  - cbn [parse_digits]. rewrite Hc.
    apply ascii_digit_bounds in Hc.
    apply IH; [unfold digit_value; lia | right; reflexivity].
Qed.

(** The sign and digits [parse_int] finds in a text of digits. *)
Lemma parse_int_digits (l : list N) :
  Forall (fun c => ascii_digit c = true) l ->
  parse_int l
  = if int_max_str_digits <? Z.of_nat (List.length l) then None
    else parse_digits 0 false l.
Proof.
  intros H. unfold parse_int. rewrite (strip_digits l H).
  destruct H as [|c l Hc Hl]; [reflexivity|].
  pose proof (ascii_digit_bounds c Hc) as Hb.
  destruct (N.eqb_spec c 43) as [?|_]; [lia|].
  destruct (N.eqb_spec c 45) as [?|_]; [lia|].
  cbn [fst snd].
  rewrite (filter_digits (c :: l)) by (constructor; assumption).
  destruct (int_max_str_digits <? Z.of_nat (List.length (c :: l)));
    [reflexivity|].
  destruct (parse_digits 0 false (c :: l)); reflexivity.
Qed.

Lemma string_length_list (s : string) :
  List.length (list_ascii_of_string s) = String.length s.
Proof.
  induction s as [|c s IH]; simpl; [reflexivity | rewrite IH; reflexivity].
Qed.

Lemma int_of_string_digit_text (s : string) :
  Forall (fun c => is_digit c = true) (list_ascii_of_string s) ->
  int_of_string s
  = if int_max_str_digits <? Z.of_nat (String.length s) then None
    else parse_digits 0 false (map N_of_ascii (list_ascii_of_string s)).
Proof.
  intros H. apply digit_bytes in H.
  unfold int_of_string, code_points.
  rewrite (utf8_decode_digits _ H), (transform_digits _ H).
  rewrite (parse_int_digits _ H), length_map, string_length_list.
  reflexivity.
Qed.

Lemma int_of_string_digits (s : string) :
  Forall (fun c => is_digit c = true) (list_ascii_of_string s) ->
  s <> "" ->
  Z.of_nat (String.length s) <= int_max_str_digits ->
  exists v, int_of_string s = Some v /\ 0 <= v.
Proof.
  intros H Hne Hlen. rewrite (int_of_string_digit_text s H).
  destruct (Z.ltb_spec int_max_str_digits (Z.of_nat (String.length s)))
    as [?|_]; [lia|].
  apply parse_digits_digits; [apply digit_bytes, H | lia |].
  left. destruct s; [contradiction | discriminate].
Qed.

Lemma int_of_string_too_long (s : string) :
  Forall (fun c => is_digit c = true) (list_ascii_of_string s) ->
  int_max_str_digits < Z.of_nat (String.length s) ->
  int_of_string s = None.
Proof.
  intros H Hlen. rewrite (int_of_string_digit_text s H).
  destruct (Z.ltb_spec int_max_str_digits (Z.of_nat (String.length s)))
    as [_|?]; [reflexivity | lia].
Qed.

Lemma market_mk_price_empty (x s : string) :
  price_conversion s = "" -> Market.mk_price x (PyStr s) = Err ValueError.
Proof.
  intros E. unfold Market.mk_price. simpl. rewrite E. reflexivity.
Qed.

Lemma market_mk_price_too_long (x s : string) :
  int_max_str_digits < Z.of_nat (String.length (price_conversion s)) ->
  Market.mk_price x (PyStr s) = Err ValueError.
Proof.
  intros Hlen. unfold Market.mk_price. simpl.
  rewrite (int_of_string_too_long _ (price_conversion_all_digits s) Hlen).
  reflexivity.
Qed.

Lemma market_mk_price_value (x s : string) :
  price_conversion s <> "" ->
  Z.of_nat (String.length (price_conversion s)) <= int_max_str_digits ->
  exists v,
    0 <= v
    /\ Market.mk_price x (PyStr s)
       = Ok {| Market.id := x;
               Market.price := {| Market.value := v;
                                  Market.currencyId := "RUR" |} |}.
Proof.
  intros Hne Hlen. unfold Market.mk_price. simpl.
  destruct (int_of_string_digits _ (price_conversion_all_digits s) Hne Hlen)
    as (v & -> & Hv).
  exists v. auto.
Qed.

(** X4. The Yandex price record: a price cell that is not text raises
    [AttributeError]; a text whose part before the first ["."] holds no
    digit, or more digits than [int] accepts (4300), raises
    [ValueError]; any other text gives a record for the row's identifier
    in the currency ["RUR"] whose value is not negative. *)
Theorem market_mk_price_cases (x : string) :
  Market.mk_price x PyNone = Err AttributeError
  /\ (forall z, Market.mk_price x (PyInt z) = Err AttributeError)
  /\ (forall s, price_conversion s = "" ->
        Market.mk_price x (PyStr s) = Err ValueError)
  /\ (forall s,
        int_max_str_digits < Z.of_nat (String.length (price_conversion s)) ->
        Market.mk_price x (PyStr s) = Err ValueError)
  /\ (forall s,
        price_conversion s <> "" ->
        Z.of_nat (String.length (price_conversion s))
        <= int_max_str_digits ->
        exists v,
          0 <= v
          /\ Market.mk_price x (PyStr s)
             = Ok {| Market.id := x;
                     Market.price := {| Market.value := v;
                                        Market.currencyId := "RUR" |} |}).
Proof.
  split; [reflexivity|]. split; [reflexivity|]. split; [|split].
  - apply market_mk_price_empty.
  - apply market_mk_price_too_long.
  - apply market_mk_price_value.
Qed.

Lemma market_mk_price_cases_witness :
  Market.mk_price "A" (PyStr "руб.") = Err ValueError
  /\ Market.mk_price "A" (PyStr (zeros 4301 ++ ".00")) = Err ValueError
  /\ exists v,
       0 <= v
       /\ Market.mk_price "A" (PyStr "5'990.00 руб.")
          = Ok {| Market.id := "A";
                  Market.price := {| Market.value := v;
                                     Market.currencyId := "RUR" |} |}.
Proof.
  destruct (market_mk_price_cases "A") as (_ & _ & Hempty & Hlong & Hvalue).
  split; [|split].
  - apply Hempty. reflexivity.
  - apply Hlong. vm_compute. reflexivity.
  - apply Hvalue; [discriminate | vm_compute; discriminate].
Defined.

(** * Further properties of reconciliation *)

(** X5. Whatever the identifier list holds, repeated identifiers
    included, a successful [create_stocks] answers one record for each
    entry of the list: the identifiers of the records are a
    rearrangement of the list. *)
Theorem create_stocks_any_list (R : list watch) (K : list string) :
  (forall stocks K',
      Seller.create_stocks R K = (Ok stocks, K') ->
      Permutation (map Seller.s_offer_id stocks) K
      /\ List.length stocks = List.length K)
  /\ (forall warehouse_id date stocks K',
        Market.create_stocks R warehouse_id date K = (Ok stocks, K') ->
        Permutation (map Market.sku stocks) K
        /\ List.length stocks = List.length K).
Proof.
  split.
  - intros stocks K' H.
    pose proof (create_stocks_with_Permutation Seller.mk_stock
                  Seller.s_offer_id (fun _ _ => eq_refl) R K K' stocks H)
      as Hperm.
    split; [exact Hperm|].
    rewrite <- (length_map Seller.s_offer_id).
    apply Permutation_length, Hperm.
  - intros warehouse_id date stocks K' H.
    pose proof (create_stocks_with_Permutation
                  (Market.mk_stock warehouse_id date)
                  Market.sku (fun _ _ => eq_refl) R K K' stocks H)
      as Hperm.
    split; [exact Hperm|].
    rewrite <- (length_map Market.sku).
    apply Permutation_length, Hperm.
Qed.

Lemma create_stocks_any_list_witness :
  Permutation
    (map Seller.s_offer_id
       [Seller.mk_stock "A" 100; Seller.mk_stock "A" 0;
        Seller.mk_stock "B" 0])
    ["A"; "A"; "B"]
  /\ List.length
       [Seller.mk_stock "A" 100; Seller.mk_stock "A" 0;
        Seller.mk_stock "B" 0]
     = List.length ["A"; "A"; "B"].
Proof.
  destruct (create_stocks_any_list scenario_rows ["A"; "A"; "B"])
    as [HS _].
  apply (HS _ ["A"; "B"]). reflexivity.
Defined.

(** ** What [create_stocks] leaves in the list *)

Lemma filter_all {A : Type} (f : A -> bool) (l : list A) :
  (forall x, In x l -> f x = true) -> filter f l = l.
Proof.
  induction l as [|a l IH]; simpl; intros H; [reflexivity|].
  rewrite (H a (or_introl eq_refl)), IH; [reflexivity|].
  intros x Hx. apply H. right. exact Hx.
Qed.

Lemma py_remove_filter (x : string) (lst lst' : list string) :
  NoDup lst ->
  py_remove x lst = Some lst' ->
  lst' = filter (fun y => negb (String.eqb y x)) lst.
Proof.
  revert lst'. induction lst as [|y lst IH]; simpl; intros lst' Hnd H.
  - discriminate.
  - inversion Hnd as [|? ? Hy Hnd']; subst.
    destruct (String.eqb_spec y x) as [-> | N]; simpl.
    + injection H as <-. symmetry. apply filter_all.
      intros z Hz. apply negb_true_iff, String.eqb_neq.
      intros ->. contradiction.
    + destruct (py_remove x lst) as [l|]; [|discriminate].
      injection H as <-. rewrite (IH l Hnd' eq_refl). reflexivity.
Qed.

Lemma has_row_cons (x : string) (w : watch) (rows : list watch) :
  has_row x (w :: rows) = String.eqb (ident w) x || has_row x rows.
Proof. reflexivity. Qed.

Lemma has_row_In (x : string) (rows : list watch) :
  has_row x rows = true <-> exists w, In w rows /\ ident w = x.
Proof.
  unfold has_row. rewrite existsb_exists. split.
  - intros (w & Hw & E). apply String.eqb_eq in E. eauto.
  - intros (w & Hw & E). exists w. split; [exact Hw|].
    apply String.eqb_eq, E.
Qed.

Section StockLeftover.

Context {update : Type}.
Variable mk : string -> Z -> update.
Variable uid : update -> string.
Hypothesis uid_mk : forall x q, uid (mk x q) = x.

Lemma match_pass_leftover (rows : list watch) :
  forall (ids ids' : list string) (out : list update),
    NoDup ids ->
    match_pass mk rows [] ids = (Ok out, ids') ->
    ids' = filter (fun x => negb (has_row x rows)) ids
    /\ Forall (fun s => has_row (uid s) rows = true) out.
Proof.
  induction rows as [|w rows IH]; intros ids ids' out Hnd H.
  - injection H as <- <-. split; [|constructor].
    symmetry. apply filter_all. reflexivity.
  - apply match_pass_step_ok in H
      as [[Hin H] | (q & ids1 & out1 & Hin & Hq & Hrm & H & ->)].
    + apply py_in_false in Hin.
      destruct (IH _ _ _ Hnd H) as (-> & Hout). split.
      * apply filter_ext_in. intros x Hx. rewrite has_row_cons.
        destruct (String.eqb_spec (ident w) x) as [E | _];
          [subst x; contradiction | reflexivity].
      * eapply Forall_impl; [|exact Hout].
        intros s Hs. rewrite has_row_cons, Hs. apply orb_true_r.
    + destruct (py_remove_NoDup _ _ _ Hnd Hrm) as (Hnd1 & _).
      destruct (IH _ _ _ Hnd1 H) as (-> & Hout).
      rewrite (py_remove_filter _ _ _ Hnd Hrm). split.
      * clear. induction ids as [|y ids IHids]; [reflexivity|].
        cbn [filter]. rewrite has_row_cons, (String.eqb_sym y).
        destruct (String.eqb (ident w) y); cbn [negb orb filter];
          [exact IHids|].
        destruct (has_row y rows); cbn [negb]; [exact IHids|].
        f_equal. exact IHids.
      * constructor.
        -- rewrite uid_mk, has_row_cons, String.eqb_refl. reflexivity.
        -- eapply Forall_impl; [|exact Hout].
           intros s Hs. rewrite has_row_cons, Hs. apply orb_true_r.
Qed.

Lemma known_removed (x : string) (ids ids1 : list string) (w : watch) :
  NoDup ids ->
  py_remove x ids = Some ids1 ->
  known ids1 w = known ids w && negb (String.eqb (ident w) x).
Proof.
  intros Hnd Hrm. unfold known.
  rewrite (py_remove_filter _ _ _ Hnd Hrm).
  destruct (String.eqb_spec (ident w) x) as [E | N].
  - rewrite andb_false_r. apply py_in_false. intros Hin.
    apply filter_In in Hin as [_ Hin].
    rewrite E, String.eqb_refl in Hin. discriminate.
  - rewrite andb_true_r.
    destruct (py_in (ident w) ids) eqn:Hin.
    + apply py_in_In. apply py_in_In in Hin.
      apply filter_In. split; [exact Hin|].
      apply negb_true_iff, String.eqb_neq, N.
    + apply py_in_false. apply py_in_false in Hin.
      intros H. apply filter_In in H as [H _]. contradiction.
Qed.

Lemma filter_known_absent (x : string) (ids : list string)
  (rows : list watch) :
  ~ In x ids ->
  filter (known ids)
    (filter (fun w' => negb (String.eqb (ident w') x)) rows)
  = filter (known ids) rows.
Proof.
  intros Hout. induction rows as [|w rows IH]; [reflexivity|].
  cbn [filter].
  destruct (String.eqb_spec (ident w) x) as [E | _]; cbn [negb].
  - assert (Hk : known ids w = false)
      by (apply py_in_false; rewrite E; exact Hout).
    rewrite Hk. exact IH.
  - cbn [filter]. rewrite IH. reflexivity.
Qed.

Lemma filter_known_removed (x : string) (ids ids1 : list string)
  (rows : list watch) :
  NoDup ids ->
  py_remove x ids = Some ids1 ->
  filter (known ids)
    (filter (fun w' => negb (String.eqb (ident w') x)) rows)
  = filter (known ids1) rows.
Proof.
  intros Hnd Hrm. induction rows as [|w rows IH]; [reflexivity|].
  cbn [filter]. rewrite (known_removed x ids ids1 w Hnd Hrm).
  destruct (String.eqb (ident w) x); cbn [negb].
  - rewrite andb_false_r. exact IH.
  - rewrite andb_true_r. cbn [filter]. rewrite IH. reflexivity.
Qed.

(** The records of the match pass are those of the first rows of the
    identifiers the list holds, in row order. *)
Lemma match_pass_records (rows : list watch) :
  forall (ids ids' : list string) (out : list update),
    NoDup ids ->
    match_pass mk rows [] ids = (Ok out, ids') ->
    map Ok out
    = map (record_of mk) (filter (known ids) (first_rows rows)).
Proof.
  induction rows as [|w rows IH]; intros ids ids' out Hnd H.
  - injection H as <- <-. reflexivity.
  - cbn [first_rows filter].
    apply match_pass_step_ok in H
      as [[Hin H] | (q & ids1 & out1 & Hin & Hq & Hrm & H & ->)].
    + unfold known at 1. rewrite Hin.
      apply py_in_false in Hin.
      rewrite (filter_known_absent _ _ _ Hin).
      apply (IH _ _ _ Hnd H).
    + unfold known at 1. rewrite Hin. cbn [map].
      destruct (py_remove_NoDup _ _ _ Hnd Hrm) as (Hnd1 & _).
      rewrite (filter_known_removed _ _ _ _ Hnd Hrm).
      rewrite <- (IH _ _ _ Hnd1 H).
      unfold record_of. rewrite Hq. reflexivity.
Qed.

Lemma create_stocks_with_leftover (rows : list watch)
  (ids ids' : list string) (stocks : list update) :
  NoDup ids ->
  create_stocks_with mk rows ids = (Ok stocks, ids') ->
  ids' = filter (fun x => negb (has_row x rows)) ids
  /\ map Ok stocks
     = map (record_of mk) (filter (known ids) (first_rows rows))
       ++ map (fun x => Ok (mk x 0)) ids'.
Proof.
  intros Hnd H. apply create_stocks_with_Ok in H as (out & H & ->).
  destruct (match_pass_leftover _ _ _ _ Hnd H) as (E & _).
  split; [exact E|].
  rewrite map_app, (match_pass_records _ _ _ _ Hnd H), map_map.
  reflexivity.
Qed.

End StockLeftover.

(** X6. After a successful [create_stocks] on a list without duplicates,
    the caller's list holds exactly the identifiers no inventory row
    carries, in their original order; the answer is, in row order, the
    record of the first row of each identifier of the list (its
    identifier with the policy's quantity), followed by one zero record
    for each identifier left, in that order. *)
Theorem create_stocks_leftover (R : list watch) (K : list string) :
  NoDup K ->
  (forall stocks K',
      Seller.create_stocks R K = (Ok stocks, K') ->
      K' = filter (fun x => negb (has_row x R)) K
      /\ map Ok stocks
         = map (record_of Seller.mk_stock) (filter (known K) (first_rows R))
           ++ map (fun x => Ok (Seller.mk_stock x 0)) K')
  /\ (forall warehouse_id date stocks K',
        Market.create_stocks R warehouse_id date K = (Ok stocks, K') ->
        K' = filter (fun x => negb (has_row x R)) K
        /\ map Ok stocks
           = map (record_of (Market.mk_stock warehouse_id date))
               (filter (known K) (first_rows R))
             ++ map (fun x => Ok (Market.mk_stock warehouse_id date x 0))
                  K').
Proof.
  intros Hnd. split.
  - intros stocks K' H.
    exact (create_stocks_with_leftover Seller.mk_stock Seller.s_offer_id
             (fun _ _ => eq_refl) R K K' stocks Hnd H).
  - intros warehouse_id date stocks K' H.
    exact (create_stocks_with_leftover (Market.mk_stock warehouse_id date)
             Market.sku (fun _ _ => eq_refl) R K K' stocks Hnd H).
Qed.

Lemma create_stocks_leftover_witness :
  ["C"]
  = filter (fun x => negb (has_row x (row "B" "4" "1.00" :: repeated_rows)))
      scenario_ids
  /\ map Ok [Seller.mk_stock "B" 4; Seller.mk_stock "A" 5;
             Seller.mk_stock "C" 0]
     = map (record_of Seller.mk_stock)
         (filter (known scenario_ids)
            (first_rows (row "B" "4" "1.00" :: repeated_rows)))
       ++ map (fun x => Ok (Seller.mk_stock x 0)) ["C"].
Proof.
  destruct (create_stocks_leftover (row "B" "4" "1.00" :: repeated_rows)
              scenario_ids NoDup_scenario_ids) as [HS _].
  apply HS. reflexivity.
Defined.

(** ** Prices after stocks, on the one list *)

Section PriceFacts.

Context {price_update : Type}.
Variable mk : string -> pyval -> result price_update.

Lemma price_pass_step (w : watch) (rows : list watch)
  (acc : list price_update) (ids : list string) :
  price_pass mk (w :: rows) acc ids
  = if py_in (ident w) ids then
      match mk (ident w) (Tsena w) with
      | Ok p => price_pass mk rows (acc ++ [p]) ids
      | Err e => (Err e, ids)
      end
    else price_pass mk rows acc ids.
Proof.
  cbn [price_pass]. unfold bind, contains, lift, ident.
  destruct (py_in (py_str (Kod w)) ids); [|reflexivity].
  destruct (mk (py_str (Kod w)) (Tsena w)); reflexivity.
Qed.

(** No row with an identifier of the list: no price record, and no
    price cell is even looked at. *)
Lemma price_pass_none (rows : list watch) :
  forall (acc : list price_update) (ids : list string),
    (forall w, In w rows -> py_in (ident w) ids = false) ->
    price_pass mk rows acc ids = (Ok acc, ids).
Proof.
  induction rows as [|w rows IH]; intros acc ids H; [reflexivity|].
  rewrite price_pass_step, (H w (or_introl eq_refl)).
  apply IH. intros w' Hw'. apply H. right. exact Hw'.
Qed.

Lemma price_pass_filter (rows : list watch) :
  forall (acc : list price_update) (ids : list string),
    price_pass mk (filter (known ids) rows) acc ids
    = price_pass mk rows acc ids.
Proof.
  induction rows as [|w rows IH]; intros acc ids; [reflexivity|].
  cbn [filter]. unfold known at 1.
  rewrite (price_pass_step w rows).
  destruct (py_in (ident w) ids) eqn:Hin; [|apply IH].
  rewrite price_pass_step, Hin.
  destruct (mk (ident w) (Tsena w)); [apply IH | reflexivity].
Qed.

Lemma price_pass_raises (rows : list watch) :
  forall (acc : list price_update) (ids : list string),
    (exists e, fst (price_pass mk rows acc ids) = Err e)
    <-> (exists w, In w rows /\ In (ident w) ids
                   /\ exists e, mk (ident w) (Tsena w) = Err e).
Proof.
  induction rows as [|w rows IH]; intros acc ids.
  - split; [intros (e & H); discriminate | intros (w & [] & _)].
  - rewrite price_pass_step.
    destruct (py_in (ident w) ids) eqn:Hin.
    + apply py_in_In in Hin.
      destruct (mk (ident w) (Tsena w)) as [p|e] eqn:Hp.
      * rewrite IH. split.
        -- intros (w' & Hw' & H). exists w'. split; [right|]; assumption.
        -- intros (w' & [<- | Hw'] & Hk & (e & He)); [congruence|].
           exists w'. eauto.
      * split; [|intros _; exists e; reflexivity].
        intros _. exists w. split; [left; reflexivity|]. eauto.
    + apply py_in_false in Hin. rewrite IH. split.
      * intros (w' & Hw' & H). exists w'. split; [right|]; assumption.
      * intros (w' & [<- | Hw'] & Hk & He); [contradiction|].
        exists w'. eauto.
Qed.

Lemma price_pass_exn (rows : list watch) :
  forall (acc : list price_update) (ids : list string) (e : exn),
    fst (price_pass mk rows acc ids) = Err e ->
    exists w, In w rows /\ mk (ident w) (Tsena w) = Err e.
Proof.
  induction rows as [|w rows IH]; intros acc ids e; [discriminate|].
  rewrite price_pass_step.
  destruct (py_in (ident w) ids).
  - destruct (mk (ident w) (Tsena w)) as [p|e0] eqn:Hp.
    + intros H. destruct (IH _ _ _ H) as (w' & Hw' & He).
      exists w'. split; [right|]; assumption.
    + simpl. intros H. injection H as <-.
      exists w. split; [left; reflexivity | exact Hp].
  - intros H. destruct (IH _ _ _ H) as (w' & Hw' & He).
    exists w'. split; [right|]; assumption.
Qed.

End PriceFacts.

Lemma leftover_unknown (rows : list watch) (ids : list string) :
  forall w, In w rows ->
    py_in (ident w) (filter (fun x => negb (has_row x rows)) ids) = false.
Proof.
  intros w Hw. apply py_in_false. intros Hin.
  apply filter_In in Hin as [_ Hno].
  apply negb_true_iff in Hno.
  assert (Hyes : has_row (ident w) rows = true)
    by (apply has_row_In; eauto).
  congruence.
Qed.

Lemma seller_prices_after_stocks (R : list watch) (K K' : list string)
  (stocks : list Seller.stock_update) :
  NoDup K ->
  Seller.create_stocks R K = (Ok stocks, K') ->
  Seller.create_prices R K' = (Ok [], K').
Proof.
  intros Hnd H.
  destruct (create_stocks_with_leftover Seller.mk_stock Seller.s_offer_id
              (fun _ _ => eq_refl) R K K' stocks Hnd H) as (E & _).
  subst K'. apply price_pass_none. apply leftover_unknown.
Qed.

(** X7. In [seller.main] the price records are computed from the list
    object [create_stocks] has just emptied of every identifier that has
    an inventory row.  So for a catalog list without duplicates, whenever
    the stock records are built, the price list that follows is empty and
    no price cell is read. *)
Theorem main_updates_no_prices (R : list watch) (K K' : list string)
  (stocks : list Seller.stock_update) :
  NoDup K ->
  Seller.create_stocks R K = (Ok stocks, K') ->
  Seller.create_prices R K' = (Ok [], K')
  /\ Seller.main_updates R K = (Ok (stocks, []), K').
Proof.
  intros Hnd H.
  pose proof (seller_prices_after_stocks R K K' stocks Hnd H) as Hprices.
  split; [exact Hprices|].
  unfold Seller.main_updates, bind. rewrite H, Hprices. reflexivity.
Qed.

Lemma main_updates_no_prices_witness :
  Seller.create_prices scenario_rows ["B"; "C"] = (Ok [], ["B"; "C"])
  /\ Seller.main_updates scenario_rows scenario_ids
     = (Ok ([Seller.mk_stock "A" 100; Seller.mk_stock "B" 0;
             Seller.mk_stock "C" 0], []), ["B"; "C"]).
Proof.
  apply (main_updates_no_prices scenario_rows scenario_ids);
    [exact NoDup_scenario_ids | reflexivity].
Defined.

(** ** Rows with unknown identifiers *)

Lemma py_remove_subset (x : string) (lst lst' : list string) (y : string) :
  py_remove x lst = Some lst' -> In y lst' -> In y lst.
Proof.
  intros H Hy. apply py_remove_Permutation in H.
  apply (Permutation_in _ (Permutation_sym H)). right. exact Hy.
Qed.

Section StockFilter.

Context {update : Type}.
Variable mk : string -> Z -> update.

Lemma match_pass_filter (K : list string) (rows : list watch) :
  forall ids : list string,
    (forall x, In x ids -> In x K) ->
    match_pass mk (filter (known K) rows) [] ids
    = match_pass mk rows [] ids.
Proof.
  induction rows as [|w rows IH]; intros ids Hsub; [reflexivity|].
  cbn [filter]. rewrite (match_pass_step mk w rows).
  unfold known at 1.
  destruct (py_in (ident w) K) eqn:HK.
  - rewrite match_pass_step.
    destruct (py_in (ident w) ids); [|apply IH, Hsub].
    destruct (stock_of_count (Kolichestvo w)); [|reflexivity].
    destruct (py_remove (ident w) ids) as [ids1|] eqn:Hrm; [|reflexivity].
    rewrite IH; [reflexivity|].
    intros x Hx. apply Hsub. apply (py_remove_subset _ _ _ _ Hrm Hx).
  - apply py_in_false in HK.
    destruct (py_in (ident w) ids) eqn:Hin; [|apply IH, Hsub].
    apply py_in_In in Hin. exfalso. apply HK, Hsub, Hin.
Qed.

Lemma create_stocks_with_filter (K : list string) (rows : list watch) :
  create_stocks_with mk (filter (known K) rows) K
  = create_stocks_with mk rows K.
Proof.
  rewrite !create_stocks_with_fst, match_pass_filter; auto.
Qed.

End StockFilter.

(** X8. Rows whose identifier is not in the list play no part: dropping
    them from the inventory changes neither the answer of [create_stocks]
    or [create_prices], nor an exception they raise, nor the list they
    leave. *)
Theorem unknown_rows_ignored (R : list watch) (K : list string) :
  Seller.create_stocks (filter (known K) R) K = Seller.create_stocks R K
  /\ (forall warehouse_id date,
        Market.create_stocks (filter (known K) R) warehouse_id date K
        = Market.create_stocks R warehouse_id date K)
  /\ Seller.create_prices (filter (known K) R) K = Seller.create_prices R K
  /\ Market.create_prices (filter (known K) R) K = Market.create_prices R K.
Proof.
  split; [apply create_stocks_with_filter|].
  split; [intros; apply create_stocks_with_filter|].
  split; apply price_pass_filter.
Qed.

(** ** When [create_prices] raises *)

Lemma seller_mk_price_Err (x : string) (v : pyval) :
  (exists e, Seller.mk_price x v = Err e) <-> not_text v.
Proof.
  unfold not_text. destruct v as [|s|z]; simpl; split;
    try (intros _ s'; discriminate);
    try (intros _; eexists; reflexivity).
  - intros (e & H). discriminate.
  - intros H. exfalso. apply (H s). reflexivity.
Qed.

Lemma market_mk_price_Err (x : string) (v : pyval) :
  (exists e, Market.mk_price x v = Err e)
  <-> not_text v
      \/ exists s,
           v = PyStr s
           /\ (price_conversion s = ""
               \/ int_max_str_digits
                  < Z.of_nat (String.length (price_conversion s))).
Proof.
  destruct v as [|s|z].
  - split; [intros _; left; intros s; discriminate|].
    intros _. eexists. reflexivity.
  - destruct (string_dec (price_conversion s) "") as [E | N].
    { split; [intros _; right; eauto|].
      intros _. exists ValueError. apply market_mk_price_empty, E. }
    destruct (Z.lt_ge_cases int_max_str_digits
                (Z.of_nat (String.length (price_conversion s))))
      as [Hlong | Hshort].
    { split; [intros _; right; eauto|].
      intros _. exists ValueError. apply market_mk_price_too_long, Hlong. }
    destruct (market_mk_price_value x s N Hshort) as (v & _ & Hv).
    split.
    + intros (e & He). congruence.
    + intros [H | (s' & Es & [E | Hlong])].
      * exfalso. apply (H s). reflexivity.
      * injection Es as <-. contradiction.
      * injection Es as <-. lia.
  - split; [intros _; left; intros s; discriminate|].
    intros _. eexists. reflexivity.
Qed.

(** X9. [create_prices] raises exactly when some row whose identifier is
    in the list has a price cell it cannot turn into a price: on Ozon a
    cell that is not text, which raises [AttributeError]; on Yandex
    Market also a text that has, before its first ["."], no digit or
    more digits than [int] accepts (4300).  Rows with unknown
    identifiers never make it raise. *)
Theorem create_prices_raises (R : list watch) (K : list string) :
  ((exists e, fst (Seller.create_prices R K) = Err e)
   <-> (exists w, In w R /\ In (ident w) K /\ not_text (Tsena w)))
  /\ (forall e, fst (Seller.create_prices R K) = Err e ->
        e = AttributeError)
  /\ ((exists e, fst (Market.create_prices R K) = Err e)
      <-> (exists w,
              In w R /\ In (ident w) K
              /\ (not_text (Tsena w)
                  \/ exists s,
                       Tsena w = PyStr s
                       /\ (price_conversion s = ""
                           \/ int_max_str_digits
                              < Z.of_nat
                                  (String.length (price_conversion s)))))).
Proof.
  split; [|split].
  - unfold Seller.create_prices, create_prices_with.
    rewrite price_pass_raises. split.
    + intros (w & Hw & Hk & He). exists w.
      split; [exact Hw|]. split; [exact Hk|].
      apply (seller_mk_price_Err (ident w)), He.
    + intros (w & Hw & Hk & Hbad). exists w.
      split; [exact Hw|]. split; [exact Hk|].
      apply seller_mk_price_Err, Hbad.
  - intros e H. apply price_pass_exn in H as (w & _ & He).
    unfold Seller.mk_price in He.
    destruct (Tsena w); simpl in He; congruence.
  - unfold Market.create_prices, create_prices_with.
    rewrite price_pass_raises. split.
    + intros (w & Hw & Hk & He). exists w.
      split; [exact Hw|]. split; [exact Hk|].
      apply (market_mk_price_Err (ident w)), He.
    + intros (w & Hw & Hk & Hbad). exists w.
      split; [exact Hw|]. split; [exact Hk|].
      apply market_mk_price_Err, Hbad.
Qed.

(** * Submission *)

Section SubmissionFacts.

Context {A Response World : Type}.
Variable update : list A -> World -> result Response * World.

Lemma send_chunks_log (chunks : list (list A)) :
  forall (sent : list (list A)) (w : World) (r : result unit)
         (sent' : list (list A)) (w' : World),
    send_chunks update chunks sent w = (r, sent', w') ->
    exists done rest,
      sent' = sent ++ done
      /\ chunks = done ++ rest
      /\ match r with
         | Ok _ => rest = []
         | Err e =>
             exists init last w0,
               done = init ++ [last] /\ update last w0 = (Err e, w')
         end.
Proof.
  induction chunks as [|c chunks IH]; intros sent w r sent' w' H.
  - injection H as <- <- <-. exists [], [].
    rewrite app_nil_r. auto.
  - cbn [send_chunks] in H.
    destruct (update c w) as [[resp|e] w1] eqn:Hc.
    + apply IH in H as (done & rest & -> & -> & Hr).
      exists (c :: done), rest.
      split; [rewrite <- app_assoc; reflexivity|].
      split; [reflexivity|].
      destruct r as [u|e]; [exact Hr|].
      destruct Hr as (init & last & w0 & -> & Hlast).
      exists (c :: init), last, w0. auto.
    + injection H as <- <- <-. exists [c], chunks.
      split; [reflexivity|]. split; [reflexivity|].
      exists [], c, w. auto.
Qed.

(** With a remote side that accepts every payload, all chunks go out. *)
Lemma send_chunks_accepting (chunks : list (list A)) :
  (forall c w, exists resp w', update c w = (Ok resp, w')) ->
  forall (sent : list (list A)) (w : World),
    exists w', send_chunks update chunks sent w = (Ok tt, sent ++ chunks, w').
Proof.
  intros Hacc. induction chunks as [|c chunks IH]; intros sent w.
  - exists w. simpl. rewrite app_nil_r. reflexivity.
  - cbn [send_chunks].
    destruct (Hacc c w) as (resp & w1 & ->).
    destruct (IH (sent ++ [c]) w1) as (w' & ->).
    exists w'. rewrite <- app_assoc. reflexivity.
Qed.

Lemma submit_log (lst : list A) (n : Z) (w : World) (r : result unit)
  (sent : list (list A)) (w' : World) :
  0 < n ->
  submit update lst n w = (r, sent, w') ->
  exists rest,
    divide lst n = Ok (sent ++ rest)
    /\ lst = List.concat sent ++ List.concat rest
    /\ Forall (fun c => 0 < Z.of_nat (List.length c) <= n) sent
    /\ match r with
       | Ok _ => rest = []
       | Err e =>
           exists init last w0,
             sent = init ++ [last] /\ update last w0 = (Err e, w')
       end.
Proof.
  intros Hn H. unfold submit in H.
  destruct (divide lst n) as [chunks|e] eqn:Hdiv.
  - apply send_chunks_log in H as (done & rest & -> & -> & Hr).
    exists rest. simpl.
    split; [reflexivity|].
    split; [rewrite <- concat_app;
            symmetry; apply (divide_concat lst n _ Hn Hdiv)|].
    split; [|exact Hr].
    pose proof (divide_chunk_sizes lst n _ Hn Hdiv) as Hsz.
    apply Forall_app in Hsz as [Hsz _]. exact Hsz.
  - rewrite divide_windows in Hdiv by exact Hn. discriminate.
Qed.

End SubmissionFacts.



(** * The callers *)

Section StockRecords.

Context {update : Type}.
Variable mk : string -> Z -> update.
Variable uid : update -> string.
Variable uqty : update -> Z.
Hypothesis uid_mk : forall x q, uid (mk x q) = x.
Hypothesis uqty_mk : forall x q, uqty (mk x q) = q.

(** A record with a quantity other than zero comes from a row. *)
Lemma create_stocks_with_nonzero (rows : list watch)
  (ids ids' : list string) (stocks : list update) :
  create_stocks_with mk rows ids = (Ok stocks, ids') ->
  forall s, In s stocks -> uqty s <> 0 -> has_row (uid s) rows = true.
Proof.
  intros H s Hs Hq. apply create_stocks_with_Ok in H as (out & H & ->).
  apply in_app_or in Hs as [Hs | Hs].
  - destruct (match_pass_from_row mk uid uqty uid_mk uqty_mk
                _ _ _ _ H s Hs) as (w & Hw & Hid & _).
    apply has_row_In. eauto.
  - apply in_map_iff in Hs as (x & <- & _).
    rewrite uqty_mk in Hq. contradiction.
Qed.

Lemma match_pass_built (rows : list watch) :
  forall (ids ids' : list string) (out : list update),
    match_pass mk rows [] ids = (Ok out, ids') ->
    Forall (fun s => exists x q, s = mk x q) out.
Proof.
  induction rows as [|w rows IH]; intros ids ids' out H.
  - injection H as <- <-. constructor.
  - apply match_pass_step_ok in H
      as [[_ H] | (q & ids1 & out1 & _ & _ & _ & H & ->)].
    + apply (IH _ _ _ H).
    + constructor; [eauto | apply (IH _ _ _ H)].
Qed.

Lemma create_stocks_with_built (rows : list watch)
  (ids ids' : list string) (stocks : list update) :
  create_stocks_with mk rows ids = (Ok stocks, ids') ->
  Forall (fun s => exists x q, s = mk x q) stocks.
Proof.
  intros H. apply create_stocks_with_Ok in H as (out & H & ->).
  apply Forall_app. split; [apply (match_pass_built _ _ _ _ H)|].
  apply Forall_forall. intros s Hs.
  apply in_map_iff in Hs as (x & <- & _). eauto.
Qed.

End StockRecords.

Lemma submit_all {A Response World : Type}
  (update : list A -> World -> result Response * World)
  (lst : list A) (n : Z) (w : World) (u : unit)
  (sent : list (list A)) (w' : World) :
  0 < n ->
  submit update lst n w = (Ok u, sent, w') ->
  List.concat sent = lst
  /\ Forall (fun c => 0 < Z.of_nat (List.length c) <= n) sent.
Proof.
  intros Hn H.
  apply submit_log in H as (rest & _ & E & Hsz & ->); [|exact Hn].
  simpl in E. rewrite app_nil_r in E. auto.
Qed.

(** X11. When [upload_prices] returns, it returns the price records of
    the rows whose identifier the catalog reader listed, in row order,
    and it has handed exactly these records to [update_price], in order,
    in non-empty payloads of at most 1000 records on Ozon and 500 on
    Yandex Market. *)
Theorem upload_prices_sends_all :
  (forall (World Response : Type) get_product_list
          (update_price :
             list Seller.price_update -> World -> result Response * World)
          fuel R (w w' : World) prices sent,
      Seller.upload_prices get_product_list update_price fuel R w
      = Some (Ok prices, sent, w') ->
      exists ids log w1,
        Seller.get_offer_ids get_product_list fuel w
        = Some (Ok ids, log, w1)
        /\ Seller.create_prices R ids = (Ok prices, ids)
        /\ map Seller.p_offer_id prices
           = filter (fun x => py_in x ids) (map ident R)
        /\ List.concat sent = prices
        /\ Forall (fun c => 0 < Z.of_nat (List.length c) <= 1000) sent)
  /\ (forall (World Response : Type) get_product_list
            (update_price :
               string -> list Market.price_update -> World
               -> result Response * World)
            fuel R campaign_id (w w' : World) prices sent,
        Market.upload_prices get_product_list update_price fuel R
          campaign_id w
        = Some (Ok prices, sent, w') ->
        exists ids log w1,
          Market.get_offer_ids (get_product_list campaign_id) fuel w
          = Some (Ok ids, log, w1)
          /\ Market.create_prices R ids = (Ok prices, ids)
          /\ map Market.id prices
             = filter (fun x => py_in x ids) (map ident R)
          /\ List.concat sent = prices
          /\ Forall (fun c => 0 < Z.of_nat (List.length c) <= 500) sent).
Proof.
  split.
  - intros World Response gpl up fuel R w w' prices sent H.
    unfold Seller.upload_prices in H.
    destruct (Seller.get_offer_ids gpl fuel w)
      as [[[[ids|e] log] w1]|]; try discriminate.
    destruct (Seller.create_prices R ids) as [[prices0|e] ids0] eqn:Hp;
      [|discriminate].
    destruct (submit up prices0 1000 w1) as [[[u|e] sent0] w2] eqn:Hs;
      [|discriminate].
    injection H as <- <- <-.
    pose proof (price_pass_frame Seller.mk_price R [] ids) as Hframe.
    fold (create_prices_with Seller.mk_price R ids) in Hframe.
    fold (Seller.create_prices R ids) in Hframe.
    rewrite Hp in Hframe. simpl in Hframe. subst ids0.
    exists ids, log, w1. split; [reflexivity|]. split; [exact Hp|].
    split.
    { apply (price_pass_ids Seller.mk_price Seller.p_offer_id
               seller_mk_price_id R [] prices0 ids ids Hp). }
    apply (submit_all up prices0 1000 w1 u sent0 w2); [lia | exact Hs].
  - intros World Response gpl up fuel R campaign_id w w' prices sent H.
    unfold Market.upload_prices in H.
    destruct (Market.get_offer_ids (gpl campaign_id) fuel w)
      as [[[[ids|e] log] w1]|]; try discriminate.
    destruct (Market.create_prices R ids) as [[prices0|e] ids0] eqn:Hp;
      [|discriminate].
    destruct (submit (up campaign_id) prices0 500 w1)
      as [[[u|e] sent0] w2] eqn:Hs; [|discriminate].
    injection H as <- <- <-.
    pose proof (price_pass_frame Market.mk_price R [] ids) as Hframe.
    fold (create_prices_with Market.mk_price R ids) in Hframe.
    fold (Market.create_prices R ids) in Hframe.
    rewrite Hp in Hframe. simpl in Hframe. subst ids0.
    exists ids, log, w1. split; [reflexivity|]. split; [exact Hp|].
    split.
    { apply (price_pass_ids Market.mk_price Market.id
               market_mk_price_id R [] prices0 ids ids Hp). }
    apply (submit_all (up campaign_id) prices0 500 w1 u sent0 w2);
      [lia | exact Hs].
Qed.

Lemma upload_prices_sends_all_witness :
  exists ids log w1,
    Seller.get_offer_ids scenario_catalog 1 tt = Some (Ok ids, log, w1)
    /\ Seller.create_prices scenario_rows ids = (Ok [scenario_price], ids)
    /\ map Seller.p_offer_id [scenario_price]
       = filter (fun x => py_in x ids) (map ident scenario_rows)
    /\ List.concat [[scenario_price]] = [scenario_price]
    /\ Forall (fun c => 0 < Z.of_nat (List.length c) <= 1000)
         [[scenario_price]].
Proof.
  destruct upload_prices_sends_all as [HS _].
  apply (HS unit unit scenario_catalog accept_all 1%nat scenario_rows tt tt).
  reflexivity.
Defined.

Lemma nonzero_filter {U : Type} (uid : U -> string) (uqty : U -> Z)
  (rows : list watch) (stocks : list U) :
  (forall s, In s stocks -> uqty s <> 0 -> has_row (uid s) rows = true) ->
  Forall (fun s => uqty s <> 0 /\ has_row (uid s) rows = true)
    (filter (fun s => negb (uqty s =? 0)) stocks).
Proof.
  intros H. apply Forall_forall. intros s Hs.
  apply filter_In in Hs as [Hs Hq].
  apply negb_true_iff, Z.eqb_neq in Hq. auto.
Qed.

(** X12. When [upload_stocks] returns [(not_empty, stocks)], [stocks]
    holds one record for each identifier the catalog reader listed and
    has been handed to [update_stocks] whole, in order, in non-empty
    payloads of at most 100 records on Ozon and 2000 on Yandex Market;
    [not_empty] is the records of [stocks] with a quantity other than
    zero, and each of them belongs to an identifier with an inventory
    row. *)
Theorem upload_stocks_sends_all :
  (forall (World Response : Type) get_product_list
          (update_stocks :
             list Seller.stock_update -> World -> result Response * World)
          fuel R (w w' : World) not_empty stocks sent,
      Seller.upload_stocks get_product_list update_stocks fuel R w
      = Some (Ok (not_empty, stocks), sent, w') ->
      exists ids log w1,
        Seller.get_offer_ids get_product_list fuel w
        = Some (Ok ids, log, w1)
        /\ Permutation (map Seller.s_offer_id stocks) ids
        /\ List.concat sent = stocks
        /\ Forall (fun c => 0 < Z.of_nat (List.length c) <= 100) sent
        /\ not_empty
           = filter (fun s => negb (Seller.s_stock s =? 0)) stocks
        /\ Forall (fun s => Seller.s_stock s <> 0
                            /\ has_row (Seller.s_offer_id s) R = true)
             not_empty)
  /\ (forall (World Response : Type) get_product_list
            (update_stocks :
               string -> list Market.stock_update -> World
               -> result Response * World)
            utcnow fuel R campaign_id warehouse_id (w w' : World)
            not_empty stocks sent,
        Market.upload_stocks get_product_list update_stocks utcnow fuel R
          campaign_id warehouse_id w
        = Some (Ok (not_empty, stocks), sent, w') ->
        exists ids log w1,
          Market.get_offer_ids (get_product_list campaign_id) fuel w
          = Some (Ok ids, log, w1)
          /\ Permutation (map Market.sku stocks) ids
          /\ List.concat sent = stocks
          /\ Forall (fun c => 0 < Z.of_nat (List.length c) <= 2000) sent
          /\ not_empty
             = filter (fun s => negb (Market.stock_count s =? 0)) stocks
          /\ Forall (fun s => Market.stock_count s <> 0
                              /\ has_row (Market.sku s) R = true)
               not_empty).
Proof.
  split.
  - intros World Response gpl us fuel R w w' not_empty stocks sent H.
    unfold Seller.upload_stocks in H.
    destruct (Seller.get_offer_ids gpl fuel w)
      as [[[[ids|e] log] w1]|]; try discriminate.
    destruct (Seller.create_stocks R ids) as [[stocks0|e] ids0] eqn:Hc;
      [|discriminate].
    destruct (submit us stocks0 100 w1) as [[[u|e] sent0] w2] eqn:Hs;
      [|discriminate].
    injection H as <- <- <- <-.
    exists ids, log, w1. split; [reflexivity|].
    split.
    { apply (create_stocks_with_Permutation Seller.mk_stock
               Seller.s_offer_id (fun _ _ => eq_refl) R ids ids0 _ Hc). }
    destruct (submit_all us stocks0 100 w1 u sent0 w2 ltac:(lia) Hs)
      as [Hcat Hsz].
    split; [exact Hcat|]. split; [exact Hsz|]. split; [reflexivity|].
    apply nonzero_filter.
    apply (create_stocks_with_nonzero Seller.mk_stock Seller.s_offer_id
             Seller.s_stock (fun _ _ => eq_refl) (fun _ _ => eq_refl)
             R ids ids0 stocks0 Hc).
  - intros World Response gpl us utcnow fuel R campaign_id warehouse_id
      w w' not_empty stocks sent H.
    unfold Market.upload_stocks in H.
    destruct (Market.get_offer_ids (gpl campaign_id) fuel w)
      as [[[[ids|e] log] w1]|]; try discriminate.
    destruct (Market.create_stocks R warehouse_id (utcnow w1) ids)
      as [[stocks0|e] ids0] eqn:Hc; [|discriminate].
    destruct (submit (us campaign_id) stocks0 2000 w1)
      as [[[u|e] sent0] w2] eqn:Hs; [|discriminate].
    injection H as <- <- <- <-.
    exists ids, log, w1. split; [reflexivity|].
    split.
    { apply (create_stocks_with_Permutation
               (Market.mk_stock warehouse_id (utcnow w1))
               Market.sku (fun _ _ => eq_refl) R ids ids0 _ Hc). }
    destruct (submit_all (us campaign_id) stocks0 2000 w1 u sent0 w2
                ltac:(lia) Hs) as [Hcat Hsz].
    split; [exact Hcat|]. split; [exact Hsz|]. split; [reflexivity|].
    apply nonzero_filter.
    apply (create_stocks_with_nonzero
             (Market.mk_stock warehouse_id (utcnow w1)) Market.sku
             Market.stock_count (fun _ _ => eq_refl) (fun _ _ => eq_refl)
             R ids ids0 stocks0 Hc).
Qed.

Lemma upload_stocks_sends_all_witness :
  exists ids log w1,
    Seller.get_offer_ids scenario_catalog 1 tt = Some (Ok ids, log, w1)
    /\ Permutation
         (map Seller.s_offer_id
            [Seller.mk_stock "A" 100; Seller.mk_stock "B" 0;
             Seller.mk_stock "C" 0]) ids
    /\ List.concat
         [[Seller.mk_stock "A" 100; Seller.mk_stock "B" 0;
           Seller.mk_stock "C" 0]]
       = [Seller.mk_stock "A" 100; Seller.mk_stock "B" 0;
          Seller.mk_stock "C" 0]
    /\ Forall (fun c => 0 < Z.of_nat (List.length c) <= 100)
         [[Seller.mk_stock "A" 100; Seller.mk_stock "B" 0;
           Seller.mk_stock "C" 0]]
    /\ [Seller.mk_stock "A" 100]
       = filter (fun s => negb (Seller.s_stock s =? 0))
           [Seller.mk_stock "A" 100; Seller.mk_stock "B" 0;
            Seller.mk_stock "C" 0]
    /\ Forall (fun s => Seller.s_stock s <> 0
                        /\ has_row (Seller.s_offer_id s) scenario_rows
                           = true)
         [Seller.mk_stock "A" 100].
Proof.
  destruct upload_stocks_sends_all as [HS _].
  apply (HS unit unit scenario_catalog accept_all 1%nat scenario_rows tt tt).
  reflexivity.
Defined.

(** ** [seller.main] *)

Lemma submit_nothing {A Response World : Type}
  (update : list A -> World -> result Response * World) (n : Z)
  (w : World) :
  0 < n -> submit update [] n w = (Ok tt, [], w).
Proof.
  intros Hn. unfold submit.
  rewrite divide_windows by exact Hn. simpl.
  rewrite Z.div_small by lia. reflexivity.
Qed.

(** X13. [seller.main] with a catalog list without duplicates never
    hands a payload to [update_price]: the price records are computed
    from the list [create_stocks] has consumed.  A run that caught no
    exception has handed [update_stocks] one record for each catalog
    identifier, in payloads of at most 100 records. *)
Theorem seller_main_sends_no_price
  (World Response : Type) get_product_list
  (update_price :
     list Seller.price_update -> World -> result Response * World)
  (update_stocks :
     list Seller.stock_update -> World -> result Response * World)
  download_stock fuel (w w' : World) (r : Seller.run) :
  (forall ids log w1,
      Seller.get_offer_ids get_product_list fuel w
      = Some (Ok ids, log, w1) -> NoDup ids) ->
  Seller.main get_product_list update_price update_stocks download_stock
    fuel w = Some (r, w') ->
  Seller.prices_sent r = []
  /\ (Seller.caught r = None ->
      exists ids log w1,
        Seller.get_offer_ids get_product_list fuel w
        = Some (Ok ids, log, w1)
        /\ Permutation
             (map Seller.s_offer_id (List.concat (Seller.stocks_sent r)))
             ids
        /\ Forall (fun c => 0 < Z.of_nat (List.length c) <= 100)
             (Seller.stocks_sent r)).
Proof.
  intros Hnd H. unfold Seller.main in H.
  destruct (Seller.main_try get_product_list update_price update_stocks
              download_stock fuel w) as [[[[res s_sent] p_sent] w0]|] eqn:Ht;
    [|discriminate].
  injection H as <- <-. simpl.
  unfold Seller.main_try in Ht.
  destruct (Seller.get_offer_ids get_product_list fuel w)
    as [[[[ids|e] log] w1]|] eqn:Hids; try discriminate.
  2:{ injection Ht as <- <- <- <-. split; [reflexivity | discriminate]. }
  specialize (Hnd ids log w1 eq_refl).
  destruct (download_stock w1) as [[R|e] w2].
  2:{ injection Ht as <- <- <- <-. split; [reflexivity | discriminate]. }
  destruct (Seller.create_stocks R ids) as [[stocks|e] K'] eqn:Hc.
  2:{ injection Ht as <- <- <- <-. split; [reflexivity | discriminate]. }
  destruct (submit update_stocks stocks 100 w2) as [[[u|e] sent] w3] eqn:Hs.
  2:{ injection Ht as <- <- <- <-. split; [reflexivity | discriminate]. }
  rewrite (seller_prices_after_stocks R ids K' stocks Hnd Hc) in Ht.
  rewrite submit_nothing in Ht by lia.
  injection Ht as <- <- <- <-. split; [reflexivity|].
  intros _. exists ids, log, w1. split; [reflexivity|].
  destruct (submit_all update_stocks stocks 100 w2 u sent w3 ltac:(lia) Hs)
    as [Hcat Hsz].
  split; [|exact Hsz].
  rewrite Hcat.
  apply (create_stocks_with_Permutation Seller.mk_stock
           Seller.s_offer_id (fun _ _ => eq_refl) R ids K' _ Hc).
Qed.

Lemma seller_main_sends_no_price_witness :
  Seller.prices_sent
    {| Seller.stocks_sent :=
         [[Seller.mk_stock "A" 100; Seller.mk_stock "B" 0;
           Seller.mk_stock "C" 0]];
       Seller.prices_sent := [];
       Seller.caught := None |} = []
  /\ (@None exn = None ->
      exists ids log w1,
        Seller.get_offer_ids scenario_catalog 1 tt = Some (Ok ids, log, w1)
        /\ Permutation
             (map Seller.s_offer_id
                (List.concat
                   [[Seller.mk_stock "A" 100; Seller.mk_stock "B" 0;
                     Seller.mk_stock "C" 0]]))
             ids
        /\ Forall (fun c => 0 < Z.of_nat (List.length c) <= 100)
             [[Seller.mk_stock "A" 100; Seller.mk_stock "B" 0;
               Seller.mk_stock "C" 0]]).
Proof.
  apply (seller_main_sends_no_price unit unit scenario_catalog
           accept_all accept_all scenario_download 1%nat tt tt).
  - intros ids log w1 H. injection H as <- _ _. exact NoDup_scenario_ids.
  - reflexivity.
Defined.

(** * Further properties of the catalog reader *)

Section SellerReaderErrors.

Variable World : Type.
Variable get_product_list :
  string -> World -> result Seller.product_page * World.


(** A remote side whose every page reports a total below the number of
    its own items keeps the loop running. *)
Lemma seller_fetch_overshoot (fuel : nat) :
  (forall tok w,
      exists p w', get_product_list tok w = (Ok p, w')
                   /\ Seller.total p
                      < Z.of_nat (List.length (Seller.items p))) ->
  forall (last_id : string) (product_list : list Seller.product)
         (log : list Seller.exchange) (w : World),
    Seller.fetch get_product_list fuel last_id product_list log w = None.
Proof.
  intros Hover. induction fuel as [|fuel IH];
    intros last_id product_list log w; [reflexivity|].
  cbn [Seller.fetch].
  destruct (Hover last_id w) as (p & w' & -> & Hp).
  destruct (Z.eqb_spec (Seller.total p)
              (Z.of_nat (List.length (product_list ++ Seller.items p))))
    as [E | _]; [|apply IH].
  rewrite length_app in E. lia.
Qed.

End SellerReaderErrors.

Section MarketReaderErrors.

Variable World : Type.
Variable get_product_list :
  string -> World -> result Market.product_page * World.


Lemma market_fetch_endless (fuel : nat) :
  (forall tok w,
      exists p w', get_product_list tok w = (Ok p, w')
                   /\ Market.falsy (Market.nextPageToken p) = false) ->
  forall (page : string) (product_list : list Market.product)
         (log : list Market.exchange) (w : World),
    Market.fetch get_product_list fuel page product_list log w = None.
Proof.
  intros Hmore. induction fuel as [|fuel IH];
    intros page product_list log w; [reflexivity|].
  cbn [Market.fetch].
  destruct (Hmore page w) as (p & w' & -> & ->). apply IH.
Qed.

End MarketReaderErrors.



(** X15. The reader has no bound on its requests.  Against a remote
    side whose every page reports a total smaller than the number of
    items on that page, the Ozon loop never meets its stop test; against
    one whose every page carries a continuation token, the Yandex loop
    never does: whatever the fuel, the run is still going. *)
Theorem get_offer_ids_unbounded :
  (forall (World : Type) get_product_list,
      (forall tok (w : World),
          exists p w', get_product_list tok w = (Ok p, w')
                       /\ Seller.total p
                          < Z.of_nat (List.length (Seller.items p))) ->
      forall fuel w, Seller.get_offer_ids get_product_list fuel w = None)
  /\ (forall (World : Type) get_product_list,
        (forall tok (w : World),
            exists p w', get_product_list tok w = (Ok p, w')
                         /\ Market.falsy (Market.nextPageToken p) = false) ->
        forall fuel w, Market.get_offer_ids get_product_list fuel w = None).
Proof.
  split.
  - intros World gpl Hover fuel w. unfold Seller.get_offer_ids.
    rewrite (seller_fetch_overshoot World gpl fuel Hover). reflexivity.
  - intros World gpl Hmore fuel w. unfold Market.get_offer_ids.
    rewrite (market_fetch_endless World gpl fuel Hmore). reflexivity.
Qed.

Lemma get_offer_ids_unbounded_witness :
  Seller.get_offer_ids (ozon_single (ozon_page ["A"; "B"] 1 "")) 50 tt
  = None
  /\ Market.get_offer_ids
       (yandex_single (yandex_page ["A"] (Some "next"))) 50 tt
     = None.
Proof.
  destruct get_offer_ids_unbounded as [HS HM]. split.
  - apply HS. intros tok w. eexists. exists w.
    split; [reflexivity | simpl; lia].
  - apply HM. intros tok w. eexists. exists w.
    split; reflexivity.
Defined.

(** * [market.main] *)

Section MarketMain.

Variable World : Type.
Variable Response : Type.
Variable get_product_list :
  string -> string -> World -> result Market.product_page * World.
Variable update_price :
  string -> list Market.price_update -> World -> result Response * World.
Variable update_stocks :
  string -> list Market.stock_update -> World -> result Response * World.
Variable utcnow : World -> string.

(** What one campaign sends goes to that campaign and carries the
    warehouse it was called with. *)
Lemma main_campaign_tagged (fuel : nat) (R : list watch)
  (campaign_id warehouse_id : string) (w w' : World) (r : result unit)
  (sent : list (string * list Market.stock_update)) :
  Market.main_campaign get_product_list update_price update_stocks utcnow
    fuel R campaign_id warehouse_id w = Some (r, sent, w') ->
  Forall (fun cp : string * list Market.stock_update =>
            fst cp = campaign_id
            /\ Forall (fun s => Market.warehouseId s = warehouse_id)
                 (snd cp))
    sent.
Proof.
  unfold Market.main_campaign. intros H.
  destruct (Market.get_offer_ids (get_product_list campaign_id) fuel w)
    as [[[[ids|e] log] w1]|]; try discriminate.
  2:{ injection H as <- <- <-. constructor. }
  destruct (Market.create_stocks R warehouse_id (utcnow w1) ids)
    as [[stocks|e] ids'] eqn:Hc.
  2:{ injection H as <- <- <-. constructor. }
  pose proof (create_stocks_with_built
                (Market.mk_stock warehouse_id (utcnow w1))
                R ids ids' stocks Hc) as Hbuilt.
  rewrite Forall_forall in Hbuilt.
  destruct (submit (update_stocks campaign_id) stocks 2000 w1)
    as [[r0 sent0] w2] eqn:Hs.
  apply submit_log in Hs as (rest & _ & Hcat & _); [|lia].
  assert (Htag : Forall (fun cp : string * list Market.stock_update =>
                           fst cp = campaign_id
                           /\ Forall (fun s => Market.warehouseId s
                                               = warehouse_id) (snd cp))
                   (map (fun some => (campaign_id, some)) sent0)).
  { apply Forall_forall. intros cp Hcp.
    apply in_map_iff in Hcp as (c & <- & Hc0). simpl.
    split; [reflexivity|].
    apply Forall_forall. intros s Hs0.
    destruct (Hbuilt s) as (x & q & ->); [|reflexivity].
    rewrite Hcat. apply in_or_app. left.
    apply in_concat. exists c. auto. }
  destruct r0 as [u|e]; injection H as <- <- <-; exact Htag.
Qed.

End MarketMain.

(** X16. [market.main]: an exception of [download_stock], called before
    the [try] block, leaves [main]; the run does not depend on the price
    write request, which is never called (the two [upload_prices] calls
    are not awaited); and every stock payload sent goes to the FBS
    campaign with all its records on the FBS warehouse, or to the DBS
    campaign with all its records on the DBS warehouse. *)
Theorem market_main_effects
  (World Response : Type) get_product_list
  (update_price :
     string -> list Market.price_update -> World -> result Response * World)
  (update_stocks :
     string -> list Market.stock_update -> World -> result Response * World)
  download_stock utcnow fuel
  (campaign_fbs_id campaign_dbs_id warehouse_fbs_id warehouse_dbs_id : string)
  (w : World) :
  (forall e w0,
      download_stock w = (Err e, w0) ->
      Market.main get_product_list update_price update_stocks
        download_stock utcnow fuel campaign_fbs_id campaign_dbs_id
        warehouse_fbs_id warehouse_dbs_id w
      = Some (Err e, w0))
  /\ (forall update_price',
        Market.main get_product_list update_price' update_stocks
          download_stock utcnow fuel campaign_fbs_id campaign_dbs_id
          warehouse_fbs_id warehouse_dbs_id w
        = Market.main get_product_list update_price update_stocks
            download_stock utcnow fuel campaign_fbs_id campaign_dbs_id
            warehouse_fbs_id warehouse_dbs_id w)
  /\ (forall r w',
        Market.main get_product_list update_price update_stocks
          download_stock utcnow fuel campaign_fbs_id campaign_dbs_id
          warehouse_fbs_id warehouse_dbs_id w
        = Some (Ok r, w') ->
        Forall (fun cp : string * list Market.stock_update =>
                  (fst cp = campaign_fbs_id
                   /\ Forall (fun s => Market.warehouseId s
                                       = warehouse_fbs_id) (snd cp))
                  \/ (fst cp = campaign_dbs_id
                      /\ Forall (fun s => Market.warehouseId s
                                          = warehouse_dbs_id) (snd cp)))
          (Market.stocks_sent r)).
Proof.
  split; [|split].
  - intros e w0 Hd. unfold Market.main. rewrite Hd. reflexivity.
  - intros update_price'. reflexivity.
  - intros r w' H. unfold Market.main in H.
    destruct (download_stock w) as [[R|e] w0]; [|discriminate].
    destruct (Market.main_campaign get_product_list update_price
                update_stocks utcnow fuel R campaign_fbs_id
                warehouse_fbs_id w0)
      as [[[[u|e] fbs_sent] w1]|] eqn:Hfbs; try discriminate.
    + apply main_campaign_tagged in Hfbs.
      destruct (Market.main_campaign get_product_list update_price
                  update_stocks utcnow fuel R campaign_dbs_id
                  warehouse_dbs_id w1)
        as [[[r2 dbs_sent] w2]|] eqn:Hdbs; [|discriminate].
      apply main_campaign_tagged in Hdbs.
      injection H as <- <-. simpl.
      apply Forall_app. split.
      * eapply Forall_impl; [|exact Hfbs]. intros cp Hcp. left. exact Hcp.
      * eapply Forall_impl; [|exact Hdbs]. intros cp Hcp. right. exact Hcp.
    + apply main_campaign_tagged in Hfbs.
      injection H as <- <-. simpl.
      eapply Forall_impl; [|exact Hfbs]. intros cp Hcp. left. exact Hcp.
Qed.

Lemma market_main_effects_witness :
  Market.main
    (fun _ : string => yandex_single (yandex_page scenario_ids None))
    (fun _ : string => @accept_all Market.price_update)
    (fun _ : string => @accept_all Market.stock_update)
    (fun w : unit => (@Err (list watch) HTTPError, w))
    (fun _ : unit => "2024-01-01T00:00:00Z")
    1 "fbs" "dbs" "w1" "w2" tt
  = Some (Err HTTPError, tt)
  /\ Forall (fun cp : string * list Market.stock_update =>
               (fst cp = "fbs"
                /\ Forall (fun s => Market.warehouseId s = "w1") (snd cp))
               \/ (fst cp = "dbs"
                   /\ Forall (fun s => Market.warehouseId s = "w2")
                        (snd cp)))
       [("fbs",
         [Market.mk_stock "w1" "2024-01-01T00:00:00Z" "A" 100;
          Market.mk_stock "w1" "2024-01-01T00:00:00Z" "B" 0;
          Market.mk_stock "w1" "2024-01-01T00:00:00Z" "C" 0]);
        ("dbs",
         [Market.mk_stock "w2" "2024-01-01T00:00:00Z" "A" 100;
          Market.mk_stock "w2" "2024-01-01T00:00:00Z" "B" 0;
          Market.mk_stock "w2" "2024-01-01T00:00:00Z" "C" 0])].
Proof.
  split.
  - apply (market_main_effects unit unit). reflexivity.
  - destruct (market_main_effects unit unit
                (fun _ : string =>
                   yandex_single (yandex_page scenario_ids None))
                (fun _ : string => @accept_all Market.price_update)
                (fun _ : string => @accept_all Market.stock_update)
                (fun w : unit => (Ok scenario_rows, w))
                (fun _ : unit => "2024-01-01T00:00:00Z")
                1%nat "fbs" "dbs" "w1" "w2" tt) as (_ & _ & Htag).
    apply (Htag
             {| Market.stocks_sent :=
                  [("fbs",
                    [Market.mk_stock "w1" "2024-01-01T00:00:00Z" "A" 100;
                     Market.mk_stock "w1" "2024-01-01T00:00:00Z" "B" 0;
                     Market.mk_stock "w1" "2024-01-01T00:00:00Z" "C" 0]);
                   ("dbs",
                    [Market.mk_stock "w2" "2024-01-01T00:00:00Z" "A" 100;
                     Market.mk_stock "w2" "2024-01-01T00:00:00Z" "B" 0;
                     Market.mk_stock "w2" "2024-01-01T00:00:00Z" "C" 0])];
                Market.caught := None |} tt).
    reflexivity.
Defined.
